(** * fake-api: the in-memory todos service of [src/fake-api.js]

    A shallow embedding of the Express handlers of [fake-api.js] and of the
    small part of JavaScript they rely on ([parseInt], [String.prototype.trim],
    truthiness, [===] on numbers, [Array.prototype.slice/splice/find/findIndex]),
    followed by the properties of the store that the specification states.

    Modelling conventions.
    - A JavaScript string is its sequence of UTF-16 code units ([jstring]).
    - A JavaScript number is [NaN] or an integer ([Int z]); arithmetic on [Z] is
      exact, which agrees with the IEEE doubles of the program as long as the
      magnitudes stay within 2^53.  Fractional numbers and infinities are outside
      the model.  In particular [parseInt] is modelled exactly: it returns what
      JavaScript returns whenever the integer read has magnitude at most 2^53
      ([is_safe_int]); beyond that JavaScript rounds to a double and, from
      2^1024 on, gives [Infinity], which the model does not follow.  A
      statement about the value that [parseInt] stores is made for that range.
    - The array [todos] owns its objects: every slot holds an object created by
      its own literal (the seed) or by one [push] of a fresh [newTodo], so no two
      slots alias.  The store is therefore a [list todo]; the reference that
      [find] returns is the slot of the object, and a write through that
      reference is an update of that slot.
    - A handler is a computation in a state-and-exception monad over the store;
      a thrown [TypeError] keeps the mutations made so far and is turned into
      the 500 response by the error-handling middleware ([app]).
    - Messages and timestamps of the response bodies are left out. *)

From Stdlib Require Import ZArith Lia Ascii String DecimalString.
From Stdlib Require DecimalPos.
From stdpp Require Import base decidable option list sorting.

Local Open Scope Z_scope.
Set Warnings "-register-all".

(** ** JavaScript values *)

Definition jstring : Type := list Z.

(** A string literal of the source, as code units. *)
Definition str (s : string) : jstring :=
  (λ a, Z.of_N (N_of_ascii a)) <$> list_ascii_of_string s.

Inductive jsnum : Type :=
| NaN
| Int (z : Z).

Inductive jsval : Type :=
| JUndefined
| JNull
| JBool (b : bool)
| JNum (n : jsnum)
| JStr (s : jstring)
| JArr (elems : list jsval)
| JObj (props : list (jstring * jsval)).

Inductive exn : Type :=
| TypeError.

Inductive result (A : Type) : Type :=
| Ok (a : A)
| Throw (e : exn).
Arguments Ok {A} a.
Arguments Throw {A} e.

Definition jstring_eqb (a b : jstring) : bool := bool_decide (a = b).

(** [a === b] on two numbers: [NaN] is equal to nothing, itself included. *)
Definition strict_eq (a b : jsnum) : bool :=
  match a, b with
  | Int x, Int y => x =? y
  | _, _ => false
  end.

(** ToBoolean on a number: [0] and [NaN] are falsy. *)
Definition num_truthy (n : jsnum) : bool :=
  match n with
  | NaN => false
  | Int z => negb (z =? 0)
  end.

(** ToBoolean, i.e. [Boolean(v)], [!v] negated and the test of [if (v)]. *)
Definition Boolean (v : jsval) : bool :=
  match v with
  | JUndefined | JNull => false
  | JBool b => b
  | JNum n => num_truthy n
  | JStr s => negb (jstring_eqb s [])
  | JArr _ | JObj _ => true
  end.

(** [o[k]] for an own property of an object parsed from JSON or from a query
    string; [undefined] when absent.  The handlers read only the names
    [title], [completed], [userId] and [limit], which an array (the other
    shape a parsed body can have) does not define. *)
Fixpoint lookup_prop (k : jstring) (props : list (jstring * jsval)) : jsval :=
  match props with
  | [] => JUndefined
  | (k', v) :: rest => if jstring_eqb k k' then v else lookup_prop k rest
  end.

Definition get_prop (o : jsval) (k : jstring) : jsval :=
  match o with
  | JObj props => lookup_prop k props
  | _ => JUndefined
  end.

Fixpoint has_own_property (k : jstring) (props : list (jstring * jsval)) : bool :=
  match props with
  | [] => false
  | (k', _) :: rest => jstring_eqb k k' || has_own_property k rest
  end.

(** ** Strings: white space, [trim], [parseInt] *)

(** WhiteSpace and LineTerminator code points of ECMAScript. *)
Definition is_white_space (c : Z) : bool :=
  bool_decide (c ∈ [9; 10; 11; 12; 13; 32; 160; 5760; 8232; 8233; 8239; 8287;
                     12288; 65279])
  || ((8192 <=? c) && (c <=? 8202)).

Fixpoint trim_start (s : jstring) : jstring :=
  match s with
  | [] => []
  | c :: rest => if is_white_space c then trim_start rest else s
  end.

Definition trim_end (s : jstring) : jstring := reverse (trim_start (reverse s)).

(** [String.prototype.trim]. *)
Definition trim (s : jstring) : jstring := trim_end (trim_start s).

(** [title.trim()] on an arbitrary value: only a string has the method; on
    [undefined] and [null] the property access throws, on every other value
    parsed from JSON the property [trim] is not callable. *)
Definition call_trim (v : jsval) : result jstring :=
  match v with
  | JStr s => Ok (trim s)
  | _ => Throw TypeError
  end.

(** The value of a code unit as a digit of radix [R], if it is one. *)
Definition digit_value (R c : Z) : option Z :=
  let d := if (48 <=? c) && (c <=? 57) then c - 48
           else if (97 <=? c) && (c <=? 122) then c - 97 + 10
           else if (65 <=? c) && (c <=? 90) then c - 65 + 10
           else R in
  if d <? R then Some d else None.

(** The longest prefix of radix-[R] digits, read as a number, with the count of
    digits read. *)
Fixpoint read_digits (R : Z) (acc : Z) (count : nat) (s : jstring) : Z * nat :=
  match s with
  | [] => (acc, count)
  | c :: rest =>
      match digit_value R c with
      | Some d => read_digits R (acc * R + d) (S count) rest
      | None => (acc, count)
      end
  end.

(** [parseInt(s)] on a string, radix argument absent.  The digits are read
    into an exact integer; JavaScript returns the double nearest to it, which
    is that integer when its magnitude is at most 2^53. *)
Definition parseInt_string (s : jstring) : jsnum :=
  let S0 := trim_start s in
  let '(sign, S1) :=
    match S0 with
    | 45 :: rest => (-1, rest)
    | 43 :: rest => (1, rest)
    | _ => (1, S0)
    end in
  let '(R, S2) :=
    match S1 with
    | 48 :: x :: rest => if (x =? 120) || (x =? 88) then (16, rest) else (10, S1)
    | _ => (10, S1)
    end in
  let '(mathInt, count) := read_digits R 0 0%nat S2 in
  match count with
  | O => NaN
  | _ => Int (sign * mathInt)
  end.

(** Number::toString on the numbers of the model (decimal digits; exact for
    magnitudes below 10^21, where JavaScript switches to exponents). *)
Definition number_to_string (n : jsnum) : jstring :=
  match n with
  | NaN => str "NaN"
  | Int z => str (NilZero.string_of_int (Z.to_int z))
  end.

Definition join_comma (parts : list jstring) : jstring :=
  match parts with
  | [] => []
  | p :: rest => foldl (λ acc q, acc ++ 44 :: q) p rest
  end.

(** ToString.  An object parsed from JSON has no callable own property, so an
    own [toString] hides [Object.prototype.toString] and the conversion to a
    primitive throws; an array is joined with commas, [undefined] and [null]
    elements giving the empty string. *)
Fixpoint ToString (v : jsval) : result jstring :=
  match v with
  | JUndefined => Ok (str "undefined")
  | JNull => Ok (str "null")
  | JBool true => Ok (str "true")
  | JBool false => Ok (str "false")
  | JNum n => Ok (number_to_string n)
  | JStr s => Ok s
  | JArr elems =>
      let fix parts (l : list jsval) : result (list jstring) :=
        match l with
        | [] => Ok []
        | e :: rest =>
            match (match e with
                   | JUndefined | JNull => Ok []
                   | _ => ToString e
                   end) with
            | Throw x => Throw x
            | Ok p => match parts rest with
                      | Throw x => Throw x
                      | Ok ps => Ok (p :: ps)
                      end
            end
        end in
      match parts elems with
      | Throw x => Throw x
      | Ok ps => Ok (join_comma ps)
      end
  | JObj props =>
      if has_own_property (str "toString") props then Throw TypeError
      else Ok (str "[object Object]")
  end.

(** [parseInt(v)]: the argument is converted to a string first. *)
Definition parseInt (v : jsval) : result jsnum :=
  match ToString v with
  | Throw x => Throw x
  | Ok s => Ok (parseInt_string s)
  end.

(** ** Arrays *)

(** [l.findIndex(p)]: the loop over the indices [k = 0, 1, ...]; [-1] when no
    element satisfies [p]. *)
Fixpoint findIndex_from {A : Type} (p : A → bool) (k : Z) (l : list A) : Z :=
  match l with
  | [] => -1
  | x :: rest => if p x then k else findIndex_from p (k + 1) rest
  end.

Definition findIndex {A : Type} (p : A → bool) (l : list A) : Z :=
  findIndex_from p 0 l.

(** [l.find(p)]: the first element satisfying [p], [None] for [undefined].
    The element is returned by reference: the result carries the slot the
    object lives in, through which later assignments reach the store. *)
Definition find {A : Type} (p : A → bool) (l : list A) : option (nat * A) :=
  list_find (λ x, Is_true (p x)) l.

(** [l.slice(0, end)]. *)
Definition slice0 {A : Type} (end_ : Z) (l : list A) : list A :=
  let len := Z.of_nat (length l) in
  let final := if end_ <? 0 then Z.max (len + end_) 0 else Z.min end_ len in
  take (Z.to_nat final) l.

(** [l.splice(start, deleteCount)]: the removed elements and the array left. *)
Definition splice {A : Type} (start deleteCount : Z) (l : list A)
  : list A * list A :=
  let len := Z.of_nat (length l) in
  let actualStart :=
    if start <? 0 then Z.max (len + start) 0 else Z.min start len in
  let actualDeleteCount := Z.min (Z.max deleteCount 0) (len - actualStart) in
  (take (Z.to_nat actualDeleteCount) (drop (Z.to_nat actualStart) l),
   take (Z.to_nat actualStart) l
     ++ drop (Z.to_nat (actualStart + actualDeleteCount)) l).

(** ** The store *)

Record todo : Type := Todo {
  userId : jsnum;
  id : Z;
  title : jstring;
  completed : bool
}.

Definition set_title (v : jstring) (t : todo) : todo :=
  {| userId := userId t; id := id t; title := v; completed := completed t |}.
Definition set_completed (v : bool) (t : todo) : todo :=
  {| userId := userId t; id := id t; title := title t; completed := v |}.
Definition set_userId (v : jsnum) (t : todo) : todo :=
  {| userId := v; id := id t; title := title t; completed := completed t |}.

(** [let todos = [...]], the seed data. *)
Definition todos : list todo :=
  [ Todo (Int 1) 1 (str "delectus aut autem") false;
    Todo (Int 1) 2 (str "quis ut nam facilis") true;
    Todo (Int 1) 3 (str "fugiat veniam minus") false;
    Todo (Int 1) 4 (str "et porro tempora") true;
    Todo (Int 2) 5 (str "laboriosam mollitia") false ].

(** [todos.map(t => t.id)]. *)
Definition ids (s : list todo) : list Z := id <$> s.

(** [Math.max(...todos.map(t => t.id), 0)]. *)
Definition max_id (s : list todo) : Z := foldr Z.max 0 (ids s).

(** [t => t.id === id]. *)
Definition has_id (n : jsnum) (t : todo) : bool := strict_eq (Int (id t)) n.

(** [t => t.userId === userId]. *)
Definition has_userId (n : jsnum) (t : todo) : bool := strict_eq (userId t) n.

(** ** Responses *)

Inductive payload : Type :=
| TodoList (l : list todo)
| TodoItem (t : todo)
| NotFoundAvailable (id : jsnum) (available_ids : list Z)
| NotFound (id : jsnum)
| TitleRequired (received_body : jsval)
| Created (todo : todo)
| Updated (updated_todo : todo) (updated_fields : bool * bool * bool)
| PartiallyUpdated (todo : todo) (updated_fields : list jstring)
| Deleted (deleted_todo : option todo) (remaining_todos : nat)
| Toggled (todo : todo)
| MarkedCompleted (todo : todo) (action : bool)
| InternalServerError.

Record response : Type := Response {
  status : Z;
  json : payload
}.

(** ** Handlers: state over the store, with exceptions *)

Definition M (A : Type) : Type := list todo → list todo * result A.

#[export] Instance M_ret : MRet M := λ A a s, (s, Ok a).
#[export] Instance M_bind : MBind M := λ A B k m s,
  match m s with
  | (s', Ok a) => k a s'
  | (s', Throw e) => (s', Throw e)
  end.

Definition get_store : M (list todo) := λ s, (s, Ok s).
Definition set_store (s' : list todo) : M () := λ _, (s', Ok ()).
Definition lift {A : Type} (r : result A) : M A := λ s, (s, r).

(** [todos[i]] used as an object: reading a property of [undefined] throws. *)
Definition todo_at (i : Z) : M todo := λ s,
  match (if i <? 0 then None else s !! Z.to_nat i) with
  | Some t => (s, Ok t)
  | None => (s, Throw TypeError)
  end.

(** [todos[i].f = rhs]: the object is looked up, then [rhs] is evaluated, then
    the field is written. *)
Definition assign_at {A : Type} (i : Z) (setter : A → todo → todo)
    (rhs : result A) : M () :=
  _ ← todo_at i;
  v ← lift rhs;
  s ← get_store;
  set_store (alter (setter v) (Z.to_nat i) s).

(** The object behind a reference returned by [find]. *)
Definition deref (r : nat) : M todo := λ s,
  match s !! r with
  | Some t => (s, Ok t)
  | None => (s, Throw TypeError)
  end.

(** [todo.f = rhs] for a reference [todo] returned by [find]. *)
Definition assign_ref {A : Type} (r : nat) (setter : A → todo → todo)
    (rhs : result A) : M () :=
  v ← lift rhs;
  s ← get_store;
  set_store (alter (setter v) r s).

(** [if (v !== undefined) { ... }]. *)
Definition when_defined (v : jsval) (body : M ()) : M () :=
  match v with
  | JUndefined => mret ()
  | _ => body
  end.

(** A destructuring default, [{ k = d } = o]: used when the property is
    [undefined]. *)
Definition get_prop_default (o : jsval) (k : jstring) (d : jsval) : jsval :=
  match get_prop o k with
  | JUndefined => d
  | v => v
  end.

(** [n || d] for a number [n]. *)
Definition num_or (n : jsnum) (d : Z) : Z :=
  match n with
  | Int z => if num_truthy n then z else d
  | NaN => d
  end.

(** [app.get('/todos', ...)]; [query] is [req.query]. *)
Definition get_todos (query : jsval) : M response :=
  s ← get_store;
  n ← lift (parseInt (get_prop query (str "limit")));
  let limit := num_or n (Z.of_nat (length s)) in
  userId ← (if Boolean (get_prop query (str "userId"))
            then u ← lift (parseInt (get_prop query (str "userId"))); mret (Some u)
            else mret None);
  let filteredTodos :=
    match userId with
    | Some u => if num_truthy u then filter (λ t, Is_true (has_userId u t)) s else s
    | None => s
    end in
  mret (Response 200 (TodoList (slice0 limit filteredTodos))).

(** [app.get('/todos/:id', ...)]; [idp] is [req.params.id]. *)
Definition get_todo (idp : jstring) : M response :=
  id ← lift (parseInt (JStr idp));
  s ← get_store;
  match find (has_id id) s with
  | Some (_, todo) => mret (Response 200 (TodoItem todo))
  | None => mret (Response 404 (NotFoundAvailable id (ids s)))
  end.

(** [app.post('/todos', ...)]; [body] is [req.body]. *)
Definition post_todos (body : jsval) : M response :=
  let title := get_prop body (str "title") in
  let completed := get_prop_default body (str "completed") (JBool false) in
  let userId := get_prop_default body (str "userId") (JNum (Int 1)) in
  if negb (Boolean title) then mret (Response 400 (TitleRequired body))
  else
    s ← get_store;
    let newId := max_id s + 1 in
    u ← lift (parseInt userId);
    t ← lift (call_trim title);
    let newTodo :=
      {| userId := u; id := newId; title := t; completed := Boolean completed |} in
    s ← get_store;
    set_store (s ++ [newTodo]);;
    mret (Response 201 (Created newTodo)).

Definition is_defined (v : jsval) : bool :=
  match v with
  | JUndefined => false
  | _ => true
  end.

(** [app.put('/todos/:id', ...)]. *)
Definition put_todo (idp : jstring) (body : jsval) : M response :=
  id ← lift (parseInt (JStr idp));
  s ← get_store;
  let todoIndex := findIndex (has_id id) s in
  if todoIndex =? -1 then mret (Response 404 (NotFound id))
  else
    let title := get_prop body (str "title") in
    let completed := get_prop body (str "completed") in
    let userId := get_prop body (str "userId") in
    when_defined title (assign_at todoIndex set_title (call_trim title));;
    when_defined completed
      (assign_at todoIndex set_completed (Ok (Boolean completed)));;
    when_defined userId (assign_at todoIndex set_userId (parseInt userId));;
    t ← todo_at todoIndex;
    mret (Response 200
            (Updated t (is_defined title, is_defined completed, is_defined userId))).

(** One [if (v !== undefined) { todo.f = ...; updatedFields.push(name); }]. *)
Definition when_defined_push (v : jsval) (body : M ()) (name : jstring)
    (updatedFields : list jstring) : M (list jstring) :=
  match v with
  | JUndefined => mret updatedFields
  | _ => body;; mret (updatedFields ++ [name])
  end.

(** [app.patch('/todos/:id', ...)]. *)
Definition patch_todo (idp : jstring) (body : jsval) : M response :=
  id ← lift (parseInt (JStr idp));
  s ← get_store;
  match find (has_id id) s with
  | None => mret (Response 404 (NotFound id))
  | Some (todo, _) =>
      let title := get_prop body (str "title") in
      let completed := get_prop body (str "completed") in
      let userId := get_prop body (str "userId") in
      f1 ← when_defined_push title
             (assign_ref todo set_title (call_trim title)) (str "title") [];
      f2 ← when_defined_push completed
             (assign_ref todo set_completed (Ok (Boolean completed)))
             (str "completed") f1;
      f3 ← when_defined_push userId
             (assign_ref todo set_userId (parseInt userId)) (str "userId") f2;
      t ← deref todo;
      mret (Response 200 (PartiallyUpdated t f3))
  end.

(** [app.delete('/todos/:id', ...)]. *)
Definition delete_todo (idp : jstring) : M response :=
  id ← lift (parseInt (JStr idp));
  s ← get_store;
  let todoIndex := findIndex (has_id id) s in
  if negb (todoIndex =? -1) then
    let '(removed, rest) := splice todoIndex 1 s in
    set_store rest;;
    let deletedTodo := head removed in
    s' ← get_store;
    mret (Response 200 (Deleted deletedTodo (length s')))
  else mret (Response 404 (NotFound id)).

(** [app.post('/todos/:id/toggle', ...)]. *)
Definition toggle_todo (idp : jstring) : M response :=
  id ← lift (parseInt (JStr idp));
  s ← get_store;
  match find (has_id id) s with
  | Some (todo, _) =>
      t ← deref todo;
      assign_ref todo set_completed (Ok (negb (completed t)));;
      t' ← deref todo;
      mret (Response 200 (Toggled t'))
  | None => mret (Response 404 (NotFound id))
  end.

(** [app.post('/todos/:id/complete', ...)]. *)
Definition complete_todo (idp : jstring) (body : jsval) : M response :=
  id ← lift (parseInt (JStr idp));
  let completed := get_prop_default body (str "completed") (JBool true) in
  s ← get_store;
  match find (has_id id) s with
  | Some (todo, _) =>
      assign_ref todo set_completed (Ok (Boolean completed));;
      t' ← deref todo;
      mret (Response 200 (MarkedCompleted t' (Boolean completed)))
  | None => mret (Response 404 (NotFound id))
  end.

(** ** The application *)

Inductive request : Type :=
| GET_todos (query : jsval)
| GET_todo (idp : jstring)
| POST_todos (body : jsval)
| PUT_todo (idp : jstring) (body : jsval)
| PATCH_todo (idp : jstring) (body : jsval)
| DELETE_todo (idp : jstring)
| POST_toggle (idp : jstring)
| POST_complete (idp : jstring) (body : jsval).

Definition route (r : request) : M response :=
  match r with
  | GET_todos query => get_todos query
  | GET_todo idp => get_todo idp
  | POST_todos body => post_todos body
  | PUT_todo idp body => put_todo idp body
  | PATCH_todo idp body => patch_todo idp body
  | DELETE_todo idp => delete_todo idp
  | POST_toggle idp => toggle_todo idp
  | POST_complete idp body => complete_todo idp body
  end.

(** The error-handling middleware, [app.use((err, req, res, next) => ...)]:
    an exception thrown by a handler is answered with status 500. *)
Definition error_handler (m : M response) (s : list todo)
  : list todo * response :=
  match m s with
  | (s', Ok r) => (s', r)
  | (s', Throw _) => (s', Response 500 InternalServerError)
  end.

(** One request served to completion: the store after it and the response. *)
Definition app (r : request) (s : list todo) : list todo * response :=
  error_handler (route r) s.

(** The stores the running service can hold. *)
Inductive reachable : list todo → Prop :=
| reachable_seed : reachable todos
| reachable_step (r : request) (s : list todo) :
    reachable s → reachable (app r s).1.

(** The invariant of the data model: ids are pairwise distinct. *)
Definition unique_ids (s : list todo) : Prop := NoDup (ids s).

(** ** Closed form of the three guarded assignments of PUT and PATCH *)

(** One [if (v !== undefined) { todo.f = rhs; }] seen on the record alone. *)
Definition field_update {A : Type} (v : jsval) (setter : A → todo → todo)
    (rhs : result A) (t : todo) : result todo :=
  match v with
  | JUndefined => Ok t
  | _ => match rhs with
         | Ok x => Ok (setter x t)
         | Throw e => Throw e
         end
  end.

(** The record after the assignments for [title], [completed] and [userId], in
    that order, up to the first conversion that throws. *)
Definition apply_fields (body : jsval) (t : todo) : todo * result () :=
  let title := get_prop body (str "title") in
  let completed := get_prop body (str "completed") in
  let userId := get_prop body (str "userId") in
  match field_update title set_title (call_trim title) t with
  | Throw e => (t, Throw e)
  | Ok t1 =>
      match field_update completed set_completed (Ok (Boolean completed)) t1 with
      | Throw e => (t1, Throw e)
      | Ok t2 =>
          match field_update userId set_userId (parseInt userId) t2 with
          | Throw e => (t2, Throw e)
          | Ok t3 => (t3, Ok ())
          end
      end
  end.

(** [updated_fields] as PATCH reports it. *)
Definition updated_names (body : jsval) : list jstring :=
  (if is_defined (get_prop body (str "title")) then [str "title"] else [])
  ++ (if is_defined (get_prop body (str "completed")) then [str "completed"] else [])
  ++ (if is_defined (get_prop body (str "userId")) then [str "userId"] else []).

(** Following the specification's words for replace and partial update:
    only the fields present in the input are overwritten; [title] is trimmed,
    [completed] is coerced to a boolean, [userId] is parsed as an integer. *)
Definition spec_partial_update (title' : option jstring)
    (completed' : option jsval) (userId' : option jsnum) (t : todo) : todo :=
  {| userId := default (userId t) userId';
     id := id t;
     title := default (title t) (trim <$> title');
     completed := default (completed t) (Boolean <$> completed') |}.

(** [todo.completed = !todo.completed]. *)
Definition flip_completed (t : todo) : todo :=
  set_completed (negb (completed t)) t.

(** The fields a request body supplies, typed as the specification types them
    ([title] a string, [userId] parsed as an integer); a [title] of another
    type and a [userId] that cannot be converted are errors. *)
Definition supplied_title (body : jsval) : result (option jstring) :=
  match get_prop body (str "title") with
  | JUndefined => Ok None
  | JStr x => Ok (Some x)
  | _ => Throw TypeError
  end.

Definition supplied_completed (body : jsval) : option jsval :=
  match get_prop body (str "completed") with
  | JUndefined => None
  | v => Some v
  end.

Definition supplied_userId (body : jsval) : result (option jsnum) :=
  match get_prop body (str "userId") with
  | JUndefined => Ok None
  | v => match parseInt v with
         | Ok u => Ok (Some u)
         | Throw e => Throw e
         end
  end.

#[export] Instance jsnum_eq_dec : EqDecision jsnum.
Proof. solve_decision. Defined.

(** A number that is an integer, not [NaN]. *)
Definition is_int (n : jsnum) : bool :=
  match n with
  | Int _ => true
  | NaN => false
  end.

(** Every record's [userId] is an integer. *)
Definition int_userIds (s : list todo) : Prop :=
  Forall (λ t, is_int (userId t) = true) s.

(** The body of a request, [undefined] for the routes that read none. *)
Definition request_body (r : request) : jsval :=
  match r with
  | POST_todos body | PUT_todo _ body | PATCH_todo _ body
  | POST_complete _ body => body
  | GET_todos _ | GET_todo _ | DELETE_todo _ | POST_toggle _ => JUndefined
  end.

(** An integer of magnitude at most 2^53: every such integer is a double,
    and [parseInt] returns it exactly. *)
Definition is_safe_int (n : jsnum) : bool :=
  match n with
  | Int z => Z.abs z <=? 2 ^ 53
  | NaN => false
  end.

(** Every record's [userId] is an integer of magnitude at most 2^53. *)
Definition safe_userIds (s : list todo) : Prop :=
  Forall (λ t, is_safe_int (userId t) = true) s.

(** The request carries no [userId], or one that [parseInt], if it converts it
    at all, reads as an integer of magnitude at most 2^53. *)
Definition userId_parses (r : request) : Prop :=
  get_prop (request_body r) (str "userId") = JUndefined
  ∨ ∀ u, parseInt (get_prop (request_body r) (str "userId")) = Ok u →
         is_safe_int u = true.

(** A string that neither starts nor ends with white space. *)
Definition no_outer_space (x : jstring) : bool :=
  match head x with
  | Some c => negb (is_white_space c)
  | None => true
  end
  && match last x with
     | Some c => negb (is_white_space c)
     | None => true
     end.

(** * Properties *)

(** ** The JavaScript fragment on examples *)

Example parseInt_examples :
  parseInt (JStr (str "42")) = Ok (Int 42)
  ∧ parseInt (JStr (str "  -7px")) = Ok (Int (-7))
  ∧ parseInt (JStr (str "0x1F")) = Ok (Int 31)
  ∧ parseInt (JStr (str "abc")) = Ok NaN
  ∧ parseInt (JStr []) = Ok NaN
  ∧ parseInt (JNum (Int 12)) = Ok (Int 12)
  ∧ parseInt JUndefined = Ok NaN
  ∧ parseInt JNull = Ok NaN
  ∧ parseInt (JBool true) = Ok NaN
  ∧ parseInt (JArr [JStr (str "3"); JNum (Int 4)]) = Ok (Int 3)
  ∧ parseInt (JObj []) = Ok NaN
  ∧ parseInt (JObj [(str "toString", JNum (Int 1))]) = Throw TypeError.
Proof. repeat split; vm_compute; reflexivity. Qed.

Example trim_examples :
  trim (str "  buy milk ") = str "buy milk"
  ∧ trim (str "   ") = []
  ∧ trim [9; 10; 160; 120; 32; 121; 8232] = [120; 32; 121].
Proof. repeat split; vm_compute; reflexivity. Qed.

(** ** Running handlers *)

Lemma bind_ok {A B : Type} (m : M A) (k : A → M B) s s' a :
  m s = (s', Ok a) → (m ≫= k) s = k a s'.
Proof. intros H. unfold mbind, M_bind. by rewrite H. Qed.

Lemma bind_throw {A B : Type} (m : M A) (k : A → M B) s s' e :
  m s = (s', Throw e) → (m ≫= k) s = (s', Throw e).
Proof. intros H. unfold mbind, M_bind. by rewrite H. Qed.

Ltac run :=
  unfold app, error_handler, route, assign_at, assign_ref, todo_at, deref,
    when_defined, when_defined_push, lift, get_store, set_store,
    mbind, mret, M_bind, M_ret in *.

Lemma parseInt_JStr (idp : jstring) :
  parseInt (JStr idp) = Ok (parseInt_string idp).
Proof. reflexivity. Qed.

(** ** [Math.max(...ids, 0)] *)

Lemma max_id_nonneg (s : list todo) : 0 ≤ max_id s.
Proof. unfold max_id, ids. induction s as [|t s IH]; csimpl; lia. Qed.

Lemma max_id_upper (s : list todo) (t : todo) : t ∈ s → id t ≤ max_id s.
Proof.
  unfold max_id, ids. induction 1 as [t s|t t' s _ IH]; csimpl; lia.
Qed.

Lemma max_id_attained (s : list todo) : max_id s = 0 ∨ max_id s ∈ ids s.
Proof.
  unfold max_id, ids. induction s as [|t s IH]; csimpl; [by left|].
  destruct (Z.max_spec (id t) (foldr Z.max 0 (id <$> s))) as [[_ ->]|[_ ->]].
  - destruct IH as [IH|IH]; [by left|]. right. by apply list_elem_of_further.
  - right. apply list_elem_of_here.
Qed.

Lemma max_id_fresh (s : list todo) : max_id s + 1 ∉ ids s.
Proof.
  unfold ids. intros (t & Heq & Hin)%list_elem_of_fmap.
  apply max_id_upper in Hin. lia.
Qed.

(** ** [find] and [findIndex] look at the same slot *)

Lemma has_id_Int (k : Z) (t : todo) : has_id (Int k) t = true ↔ id t = k.
Proof. unfold has_id, strict_eq. apply Z.eqb_eq. Qed.

Lemma has_id_NaN (t : todo) : has_id NaN t = false.
Proof. reflexivity. Qed.

Lemma findIndex_from_find {A : Type} (p : A → bool) (k : Z) (l : list A) :
  findIndex_from p k l =
    match find p l with
    | Some (i, _) => k + Z.of_nat i
    | None => -1
    end.
Proof.
  unfold find. revert k. induction l as [|x l IH]; intros k; simpl; [done|].
  destruct (p x) eqn:Hp; simpl; [lia|].
  rewrite IH. destruct (list_find _ l) as [[i y]|]; simpl; [lia|done].
Qed.

Lemma findIndex_find_Some {A : Type} (p : A → bool) (l : list A) i x :
  find p l = Some (i, x) → findIndex p l = Z.of_nat i.
Proof. intros H. unfold findIndex. rewrite findIndex_from_find, H. lia. Qed.

Lemma findIndex_find_None {A : Type} (p : A → bool) (l : list A) :
  find p l = None → findIndex p l = -1.
Proof. intros H. unfold findIndex. by rewrite findIndex_from_find, H. Qed.

Lemma find_Some_lookup {A : Type} (p : A → bool) (l : list A) i x :
  find p l = Some (i, x) → l !! i = Some x ∧ p x = true.
Proof.
  unfold find. intros (Hl & Hp & _)%list_find_Some. split; [done|].
  by apply Is_true_true.
Qed.

Lemma find_None_absent (n : jsnum) (s : list todo) :
  find (has_id n) s = None ↔ ∀ t, t ∈ s → Int (id t) ≠ n.
Proof.
  unfold find. rewrite list_find_None, Forall_forall. split.
  - intros H t Hin <-. apply (H t Hin). unfold has_id, strict_eq.
    by rewrite Z.eqb_refl.
  - intros H t Hin Hp. apply (H t Hin). apply Is_true_true in Hp.
    destruct n as [|k]; [done|]. apply has_id_Int in Hp. by rewrite Hp.
Qed.

Lemma find_present (k : Z) (s : list todo) :
  k ∈ ids s → ∃ i t, find (has_id (Int k)) s = Some (i, t) ∧ id t = k.
Proof.
  intros (t & -> & Hin)%list_elem_of_fmap.
  destruct (list_find_elem_of (λ x, Is_true (has_id (Int (id t)) x)) s t Hin)
    as [[i t0] Hf].
  { apply Is_true_true. by apply has_id_Int. }
  exists i, t0. split; [done|].
  apply find_Some_lookup in Hf as [_ Hp]. by apply has_id_Int.
Qed.

(** With pairwise distinct ids, the slot found for an id is the slot of the
    record carrying it. *)
Lemma find_unique (s : list todo) i t :
  unique_ids s → s !! i = Some t → find (has_id (Int (id t))) s = Some (i, t).
Proof.
  intros Hnd Hl. unfold find. apply list_find_Some. split_and!; [done|..].
  - apply Is_true_true. by apply has_id_Int.
  - intros j y Hj Hlt Hp. apply Is_true_true, has_id_Int in Hp.
    assert (ids s !! j = Some (id t)) as Hj'.
    { unfold ids. rewrite list_lookup_fmap, Hj. simpl. by rewrite Hp. }
    assert (ids s !! i = Some (id t)) as Hi'.
    { unfold ids. by rewrite list_lookup_fmap, Hl. }
    pose proof (NoDup_lookup _ _ _ _ Hnd Hj' Hi'). lia.
Qed.

(** ** POST /todos *)

(** The three outcomes of the create handler. *)
Lemma post_todos_run (body : jsval) (s : list todo) :
  let title := get_prop body (str "title") in
  let completed := get_prop_default body (str "completed") (JBool false) in
  let userId := get_prop_default body (str "userId") (JNum (Int 1)) in
  post_todos body s =
    if negb (Boolean title) then (s, Ok (Response 400 (TitleRequired body)))
    else match parseInt userId, call_trim title with
         | Ok u, Ok t =>
             let newTodo := Todo u (max_id s + 1) t (Boolean completed) in
             (s ++ [newTodo], Ok (Response 201 (Created newTodo)))
         | _, _ => (s, Throw TypeError)
         end.
Proof.
  intros title completed userId. unfold post_todos.
  fold title completed userId.
  destruct (negb (Boolean title)); [done|]. run.
  destruct (parseInt userId) as [u|[]]; [|by destruct (call_trim title) as [|[]]].
  by destruct (call_trim title) as [t|[]].
Qed.

(** A truthy string is a non-empty string. *)
Lemma Boolean_JStr (t : jstring) : Boolean (JStr t) = true ↔ t ≠ [].
Proof.
  simpl. unfold jstring_eqb. rewrite negb_true_iff, bool_decide_eq_false. done.
Qed.

Lemma post_todos_created (s : list todo) (body : jsval) (t : jstring) (u : jsnum) :
  get_prop body (str "title") = JStr t →
  t ≠ [] →
  parseInt (get_prop_default body (str "userId") (JNum (Int 1))) = Ok u →
  let newTodo :=
    Todo u (max_id s + 1) (trim t)
      (Boolean (get_prop_default body (str "completed") (JBool false))) in
  app (POST_todos body) s = (s ++ [newTodo], Response 201 (Created newTodo)).
Proof.
  intros Ht Hne Hu newTodo. unfold app, error_handler, route.
  rewrite post_todos_run, Ht, Hu. apply Boolean_JStr in Hne. rewrite Hne.
  reflexivity.
Qed.

(** Conversely, a 201 answer can only come from a non-empty string title and a
    [userId] that converts. *)
Lemma post_todos_201_inv (s s' : list todo) (body : jsval) (r : response) :
  app (POST_todos body) s = (s', r) →
  status r = 201 →
  ∃ t u,
    get_prop body (str "title") = JStr t ∧ t ≠ [] ∧
    parseInt (get_prop_default body (str "userId") (JNum (Int 1))) = Ok u.
Proof.
  unfold app, error_handler, route. rewrite post_todos_run.
  destruct (negb (Boolean _)) eqn:Hb.
  { intros [= <- <-]. simpl. lia. }
  destruct (parseInt _) as [u|e]; [|intros [= <- <-]; simpl; lia].
  destruct (get_prop body (str "title")) as [| |b|n|t|l|o] eqn:Ht; simpl;
    try (intros [= <- <-]; simpl; lia).
  intros _ _. exists t, u. split_and!; [done| |done].
  apply Boolean_JStr. by apply negb_false_iff in Hb.
Qed.

(** C5: a successful create (string title that is not empty, userId that
    converts) gives the new record the id [max(existing ids, 0) + 1], appends
    it at the end of the sequence, the existing records staying unchanged and
    in place, and answers 201 with the created record. *)
Theorem C5_create_appends_with_next_id
    (s : list todo) (body : jsval) (t : jstring) (u : jsnum) :
  get_prop body (str "title") = JStr t →
  t ≠ [] →
  parseInt (get_prop_default body (str "userId") (JNum (Int 1))) = Ok u →
  ∃ newTodo,
    app (POST_todos body) s = (s ++ [newTodo], Response 201 (Created newTodo))
    ∧ id newTodo = foldr Z.max 0 (ids s) + 1
    ∧ userId newTodo = u
    ∧ title newTodo = trim t
    ∧ completed newTodo
      = Boolean (get_prop_default body (str "completed") (JBool false))
    ∧ (∀ i x, s !! i = Some x → (s ++ [newTodo]) !! i = Some x)
    ∧ (s ++ [newTodo]) !! length s = Some newTodo.
Proof.
  intros Ht Hne Hu. eexists. split; [by apply post_todos_created|].
  split_and!; try reflexivity.
  - intros i x Hi. by apply lookup_app_l_Some.
  - by rewrite list_lookup_middle.
Qed.

Lemma C5_witness :
  ∃ newTodo,
    app (POST_todos (JObj [(str "title", JStr (str " x "))])) todos
      = (todos ++ [newTodo], Response 201 (Created newTodo))
    ∧ id newTodo = foldr Z.max 0 (ids todos) + 1
    ∧ userId newTodo = Int 1
    ∧ title newTodo = trim (str " x ")
    ∧ completed newTodo
      = Boolean (get_prop_default (JObj [(str "title", JStr (str " x "))])
                   (str "completed") (JBool false))
    ∧ (∀ i x, todos !! i = Some x → (todos ++ [newTodo]) !! i = Some x)
    ∧ (todos ++ [newTodo]) !! length todos = Some newTodo.
Proof.
  apply (C5_create_appends_with_next_id todos
           (JObj [(str "title", JStr (str " x "))]) (str " x ") (Int 1)).
  - reflexivity.
  - vm_compute. discriminate.
  - reflexivity.
Defined.

(** C2 (as amended): a create request whose title is falsy (absent, the empty
    string, [null], [false], [0]) is answered 400 with the request body echoed
    and leaves the store unchanged; every other title gets another answer. *)
Theorem C2_falsy_title_rejected (s : list todo) (body : jsval) :
  (Boolean (get_prop body (str "title")) = false →
     app (POST_todos body) s = (s, Response 400 (TitleRequired body)))
  ∧ (Boolean (get_prop body (str "title")) = true →
     status (app (POST_todos body) s).2 ≠ 400).
Proof.
  unfold app, error_handler, route. rewrite post_todos_run. split; intros ->.
  - reflexivity.
  - simpl. destruct (parseInt _) as [u|e]; [|simpl; lia].
    destruct (call_trim _) as [t|e]; simpl; lia.
Qed.

Lemma C2_witness :
  app (POST_todos (JObj [(str "title", JStr []); (str "userId", JNum (Int 2))]))
      todos
  = (todos,
     Response 400
       (TitleRequired (JObj [(str "title", JStr []); (str "userId", JNum (Int 2))])))
  ∧ app (POST_todos (JObj [(str "completed", JBool true)])) todos
    = (todos, Response 400 (TitleRequired (JObj [(str "completed", JBool true)])))
  ∧ status (app (POST_todos (JObj [(str "title", JStr (str "x"))])) todos).2 ≠ 400.
Proof.
  split_and!.
  - apply (C2_falsy_title_rejected todos
             (JObj [(str "title", JStr []); (str "userId", JNum (Int 2))])).
    reflexivity.
  - apply (C2_falsy_title_rejected todos (JObj [(str "completed", JBool true)])).
    reflexivity.
  - apply (C2_falsy_title_rejected todos (JObj [(str "title", JStr (str "x"))])).
    reflexivity.
Defined.

(** C2 fails as stated: a title of three spaces is truthy, so the request is
    answered 201 and a sixth record, with the empty title, is stored. *)
Lemma C2_whitespace_title_accepted :
  app (POST_todos (JObj [(str "title", JStr (str "   "))])) todos
  = (todos ++ [Todo (Int 1) 6 [] false],
     Response 201 (Created (Todo (Int 1) 6 [] false)))
  ∧ length (app (POST_todos (JObj [(str "title", JStr (str "   "))])) todos).1
    = 6%nat
  ∧ length todos = 5%nat.
Proof. split_and!; vm_compute; reflexivity. Qed.

(** ** DELETE /todos/:id *)

Lemma splice_one {A : Type} (l : list A) (i : nat) (x : A) :
  l !! i = Some x → splice (Z.of_nat i) 1 l = ([x], delete i l).
Proof.
  intros Hl. pose proof (lookup_lt_Some _ _ _ Hl) as Hlt. unfold splice.
  destruct (Z.ltb_spec (Z.of_nat i) 0) as [?|_]; [lia|].
  replace (Z.min (Z.of_nat i) (Z.of_nat (length l))) with (Z.of_nat i) by lia.
  replace (Z.min (Z.max 1 0) (Z.of_nat (length l) - Z.of_nat i)) with 1 by lia.
  replace (Z.to_nat (Z.of_nat i + 1)) with (S i) by lia.
  rewrite Nat2Z.id, (drop_S _ _ _ Hl), delete_take_drop. reflexivity.
Qed.

(** The two outcomes of the delete handler. *)
Lemma delete_todo_run (idp : jstring) (s : list todo) :
  delete_todo idp s =
    match find (has_id (parseInt_string idp)) s with
    | Some (i, t) =>
        (delete i s, Ok (Response 200 (Deleted (Some t) (length (delete i s)))))
    | None => (s, Ok (Response 404 (NotFound (parseInt_string idp))))
    end.
Proof.
  unfold delete_todo. rewrite parseInt_JStr. run.
  destruct (find _ s) as [[i t]|] eqn:Hf.
  - rewrite (findIndex_find_Some _ _ _ _ Hf).
    apply find_Some_lookup in Hf as [Hl _].
    rewrite (splice_one _ _ _ Hl).
    by destruct (Z.eqb_spec (Z.of_nat i) (-1)) as [?|_]; [lia|].
  - by rewrite (findIndex_find_None _ _ Hf).
Qed.

(** C1 (as amended): a create with a non-empty title gives the new record the
    id [max(existing ids, 0) + 1], strictly greater than the current maximum
    and hence than every id in the store; when the store is what a delete left
    behind, the new id differs from the deleted id if a record with an id at
    least as high remains. *)
Theorem C1_create_id_above_current_maximum
    (s : list todo) (body : jsval) (t : jstring) (u : jsnum) :
  get_prop body (str "title") = JStr t →
  t ≠ [] →
  parseInt (get_prop_default body (str "userId") (JNum (Int 1))) = Ok u →
  ∃ newTodo s',
    app (POST_todos body) s = (s', Response 201 (Created newTodo))
    ∧ id newTodo = max_id s + 1
    ∧ max_id s < id newTodo
    ∧ (∀ x, x ∈ s → id x < id newTodo)
    ∧ (∀ s0 idp d n,
         app (DELETE_todo idp) s0 = (s, Response 200 (Deleted (Some d) n)) →
         (∃ y, y ∈ s ∧ id d ≤ id y) → id newTodo ≠ id d).
Proof.
  intros Ht Hne Hu. eexists _, _. split; [by apply post_todos_created|].
  simpl. split; [done|]. split; [lia|].
  assert (∀ x, x ∈ s → id x < max_id s + 1) as Hlt.
  { intros x Hx%max_id_upper. lia. }
  split; [done|]. intros s0 idp d n _ (y & Hy%Hlt & Hle). lia.
Qed.

Lemma C1_witness :
  ∃ newTodo s',
    app (POST_todos (JObj [(str "title", JStr (str "x"))])) todos
      = (s', Response 201 (Created newTodo))
    ∧ id newTodo = max_id todos + 1
    ∧ max_id todos < id newTodo
    ∧ (∀ x, x ∈ todos → id x < id newTodo)
    ∧ (∀ s0 idp d n,
         app (DELETE_todo idp) s0 = (todos, Response 200 (Deleted (Some d) n)) →
         (∃ y, y ∈ todos ∧ id d ≤ id y) → id newTodo ≠ id d).
Proof.
  apply (C1_create_id_above_current_maximum todos
           (JObj [(str "title", JStr (str "x"))]) (str "x") (Int 1)).
  - reflexivity.
  - vm_compute. discriminate.
  - reflexivity.
Defined.

(** C1 fails as stated: on the seed data a create gives id 6; after the record
    with id 6, the highest, is deleted, the next create gives id 6 again. *)
Lemma C1_deleted_id_reused :
  let s1 := (app (POST_todos (JObj [(str "title", JStr (str "x"))])) todos).1 in
  let s2 := (app (DELETE_todo (str "6")) s1).1 in
  (app (POST_todos (JObj [(str "title", JStr (str "x"))])) todos).2
    = Response 201 (Created (Todo (Int 1) 6 (str "x") false))
  ∧ max_id s1 = 6
  ∧ (app (DELETE_todo (str "6")) s1).2
    = Response 200 (Deleted (Some (Todo (Int 1) 6 (str "x") false)) 5)
  ∧ (app (POST_todos (JObj [(str "title", JStr (str "y"))])) s2).2
    = Response 201 (Created (Todo (Int 1) 6 (str "y") false)).
Proof. split_and!; vm_compute; reflexivity. Qed.

(** ** GET /todos/:id *)

Lemma get_todo_run (idp : jstring) (s : list todo) :
  get_todo idp s =
    match find (has_id (parseInt_string idp)) s with
    | Some (_, t) => (s, Ok (Response 200 (TodoItem t)))
    | None =>
        (s, Ok (Response 404 (NotFoundAvailable (parseInt_string idp) (ids s))))
    end.
Proof.
  unfold get_todo. rewrite parseInt_JStr. run.
  by destruct (find _ s) as [[i t]|].
Qed.

Lemma get_todo_absent (s : list todo) (idp : jstring) :
  (∀ t, t ∈ s → Int (id t) ≠ parseInt_string idp) →
  app (GET_todo idp) s
  = (s, Response 404 (NotFoundAvailable (parseInt_string idp) (ids s))).
Proof.
  intros Habs%find_None_absent. unfold app, error_handler, route.
  by rewrite get_todo_run, Habs.
Qed.

(** C8: for an id carried by no record of the store, GET /todos/:id answers
    404 with the requested id and [available_ids], the ids of the store in
    store order; the store is not touched. *)
Theorem C8_get_absent_id_lists_available_ids (s : list todo) (idp : jstring) :
  (∀ t, t ∈ s → Int (id t) ≠ parseInt_string idp) →
  app (GET_todo idp) s
  = (s, Response 404 (NotFoundAvailable (parseInt_string idp) (id <$> s))).
Proof. apply get_todo_absent. Qed.

Lemma C8_witness :
  app (GET_todo (str "9")) todos
  = (todos, Response 404 (NotFoundAvailable (parseInt_string (str "9")) (id <$> todos)))
  ∧ parseInt_string (str "9") = Int 9
  ∧ id <$> todos = [1; 2; 3; 4; 5].
Proof.
  split; [|split; reflexivity].
  apply (C8_get_absent_id_lists_available_ids todos (str "9")).
  apply find_None_absent. vm_compute. reflexivity.
Defined.

(** A record found by GET /todos/:id is answered with status 200. *)
Lemma get_todo_found (s : list todo) (idp : jstring) i t :
  find (has_id (parseInt_string idp)) s = Some (i, t) →
  app (GET_todo idp) s = (s, Response 200 (TodoItem t)).
Proof.
  intros Hf. unfold app, error_handler, route. by rewrite get_todo_run, Hf.
Qed.

(** ** Deleting *)

Lemma ids_delete (s : list todo) (i : nat) : ids (delete i s) = delete i (ids s).
Proof. unfold ids. apply list_fmap_delete. Qed.

Lemma unique_ids_delete (s : list todo) (i : nat) :
  unique_ids s → unique_ids (delete i s).
Proof.
  unfold unique_ids. rewrite ids_delete. intros Hnd.
  eapply sublist_NoDup; [done|apply sublist_delete].
Qed.

Lemma deleted_id_gone (s : list todo) (i : nat) (t : todo) :
  unique_ids s → s !! i = Some t → id t ∉ ids (delete i s).
Proof.
  unfold unique_ids. intros Hnd Hl.
  assert (ids s !! i = Some (id t)) as Hi.
  { unfold ids. by rewrite list_lookup_fmap, Hl. }
  rewrite ids_delete, delete_take_drop.
  rewrite <- (take_drop_middle _ _ _ Hi) in Hnd.
  apply NoDup_app in Hnd as (_ & Hl1 & [Hl2 _]%NoDup_cons).
  intros [Hin|Hin]%elem_of_app; [|done].
  apply (Hl1 _ Hin). apply list_elem_of_here.
Qed.

(** C6: deleting an id present in the store removes exactly the record found
    for it (one record fewer, the others in their order), answers 200 with the
    removed record, and, ids being distinct, a following GET of the id is
    answered 404; deleting an id carried by no record answers 404 and leaves
    the store as it was. *)
Theorem C6_delete_removes_exactly_one (s : list todo) (idp : jstring) :
  (∀ k, parseInt_string idp = Int k → k ∈ ids s →
     ∃ i t,
       s !! i = Some t ∧ id t = k
       ∧ app (DELETE_todo idp) s
         = (delete i s, Response 200 (Deleted (Some t) (length s - 1)))
       ∧ length (delete i s) = (length s - 1)%nat
       ∧ s = take i s ++ t :: drop (S i) s
       ∧ delete i s = take i s ++ drop (S i) s
       ∧ (unique_ids s →
          app (GET_todo idp) (delete i s)
          = (delete i s,
             Response 404 (NotFoundAvailable (Int k) (ids (delete i s))))))
  ∧ ((∀ t, t ∈ s → Int (id t) ≠ parseInt_string idp) →
     app (DELETE_todo idp) s
     = (s, Response 404 (NotFound (parseInt_string idp)))).
Proof.
  split.
  - intros k Hk (i & t & Hf & Hid)%find_present. exists i, t.
    pose proof (find_Some_lookup _ _ _ _ Hf) as [Hl _].
    assert (length (delete i s) = (length s - 1)%nat) as Hlen
      by (apply length_delete; eauto).
    split_and!; [done|done| |done| | |].
    + unfold app, error_handler, route.
      by rewrite delete_todo_run, Hk, Hf, Hlen.
    + by rewrite take_drop_middle.
    + apply delete_take_drop.
    + intros Hnd. rewrite <- Hk.
      apply get_todo_absent. rewrite Hk.
      intros x Hx [= Hxk]. apply (deleted_id_gone s i t Hnd Hl).
      rewrite Hid, <- Hxk. unfold ids. by apply list_elem_of_fmap_2.
  - intros Habs%find_None_absent. unfold app, error_handler, route.
    by rewrite delete_todo_run, Habs.
Qed.

Lemma todos_unique_ids : unique_ids todos.
Proof. unfold unique_ids. eapply bool_decide_unpack. vm_compute. exact I. Qed.

Lemma C6_witness :
  (∃ i t,
     todos !! i = Some t ∧ id t = 3
     ∧ app (DELETE_todo (str "3")) todos
       = (delete i todos, Response 200 (Deleted (Some t) 4))
     ∧ app (GET_todo (str "3")) (delete i todos)
       = (delete i todos,
          Response 404 (NotFoundAvailable (Int 3) (ids (delete i todos)))))
  ∧ app (DELETE_todo (str "9")) todos
    = (todos, Response 404 (NotFound (parseInt_string (str "9")))).
Proof.
  split.
  - destruct (proj1 (C6_delete_removes_exactly_one todos (str "3")) 3)
      as (i & t & H1 & H2 & H3 & _ & _ & _ & H7).
    + reflexivity.
    + apply (list_elem_of_lookup_2 _ 2%nat). reflexivity.
    + exists i, t. split_and!; [done|done|done|]. apply H7, todos_unique_ids.
  - apply (proj2 (C6_delete_removes_exactly_one todos (str "9"))).
    apply find_None_absent. vm_compute. reflexivity.
Defined.

(** ** POST /todos/:id/toggle *)

Lemma alter_insert {A : Type} (f : A → A) (l : list A) (i : nat) (x : A) :
  l !! i = Some x → alter f i l = <[i := f x]> l.
Proof.
  revert i. induction l as [|y l IH]; intros [|i] Hl; simplify_eq/=; [done|].
  f_equal. by apply IH.
Qed.

(** Writing fields other than [id] into the slot that [find] returned does
    not change what [find] returns for that id. *)
Lemma find_insert_same_id (n : jsnum) (s : list todo) i t t' :
  find (has_id n) s = Some (i, t) → id t' = id t →
  find (has_id n) (<[i := t']> s) = Some (i, t').
Proof.
  unfold find. intros (Hl & Hp & Hmin)%list_find_Some Hid.
  apply list_find_Some. split_and!.
  - apply list_lookup_insert_eq. by eapply lookup_lt_Some.
  - unfold has_id in *. by rewrite Hid.
  - intros j y Hj Hlt. rewrite list_lookup_insert_ne in Hj by lia. eauto.
Qed.

Lemma toggle_todo_run (idp : jstring) (s : list todo) :
  toggle_todo idp s =
    match find (has_id (parseInt_string idp)) s with
    | Some (i, t) =>
        (<[i := flip_completed t]> s, Ok (Response 200 (Toggled (flip_completed t))))
    | None => (s, Ok (Response 404 (NotFound (parseInt_string idp))))
    end.
Proof.
  unfold toggle_todo. rewrite parseInt_JStr. run.
  destruct (find _ s) as [[i t]|] eqn:Hf; [|done].
  apply find_Some_lookup in Hf as [Hl _]. rewrite Hl.
  rewrite list_lookup_alter_eq, Hl. simpl.
  by rewrite (alter_insert _ _ _ _ Hl).
Qed.

Lemma flip_completed_involutive (t : todo) :
  flip_completed (flip_completed t) = t.
Proof. destruct t as [u k ti c]. unfold flip_completed. simpl. by destruct c. Qed.

(** C7: for a record present in the store, toggling its id twice gives back
    the original store, so the record has its original [completed] value and
    nothing else has changed; the first toggle negates [completed] of the
    record found for the id, which is the record itself when ids are
    distinct. *)
Theorem C7_toggle_twice_restores (s : list todo) (idp : jstring) (t : todo) :
  t ∈ s →
  parseInt_string idp = Int (id t) →
  ∃ i t0,
    find (has_id (Int (id t))) s = Some (i, t0)
    ∧ (unique_ids s → t0 = t)
    ∧ app (POST_toggle idp) s
      = (<[i := flip_completed t0]> s,
         Response 200 (Toggled (flip_completed t0)))
    ∧ completed (flip_completed t0) = negb (completed t0)
    ∧ app (POST_toggle idp) (<[i := flip_completed t0]> s)
      = (s, Response 200 (Toggled t0)).
Proof.
  intros Hin Hidp.
  destruct (find_present (id t) s) as (i & t0 & Hf & Hid).
  { unfold ids. by apply list_elem_of_fmap_2. }
  exists i, t0. pose proof (find_Some_lookup _ _ _ _ Hf) as [Hl _].
  split_and!; [done| | |done|].
  - intros Hnd. apply list_elem_of_lookup in Hin as [j Hj].
    pose proof (find_unique s j t Hnd Hj) as Hf'. congruence.
  - unfold app, error_handler, route. by rewrite toggle_todo_run, Hidp, Hf.
  - unfold app, error_handler, route. rewrite toggle_todo_run, Hidp.
    rewrite (find_insert_same_id _ _ _ _ (flip_completed t0) Hf) by done.
    rewrite flip_completed_involutive, list_insert_insert_eq.
    by rewrite (list_insert_id _ _ _ Hl).
Qed.

Lemma C7_witness :
  ∃ i t0,
    find (has_id (Int 2)) todos = Some (i, t0)
    ∧ (unique_ids todos → t0 = Todo (Int 1) 2 (str "quis ut nam facilis") true)
    ∧ app (POST_toggle (str "2")) todos
      = (<[i := flip_completed t0]> todos,
         Response 200 (Toggled (flip_completed t0)))
    ∧ completed (flip_completed t0) = negb (completed t0)
    ∧ app (POST_toggle (str "2")) (<[i := flip_completed t0]> todos)
      = (todos, Response 200 (Toggled t0)).
Proof.
  apply (C7_toggle_twice_restores todos (str "2")
           (Todo (Int 1) 2 (str "quis ut nam facilis") true)).
  - apply (list_elem_of_lookup_2 _ 1%nat). reflexivity.
  - reflexivity.
Defined.

(** ** PUT and PATCH /todos/:id *)

Lemma field_step_at {A : Type} (v : jsval) (setter : A → todo → todo)
    (rhs : result A) (s : list todo) (i : nat) (t0 t : todo) :
  s !! i = Some t0 →
  when_defined v (assign_at (Z.of_nat i) setter rhs) (<[i := t]> s) =
    match field_update v setter rhs t with
    | Ok t' => (<[i := t']> s, Ok ())
    | Throw e => (<[i := t]> s, Throw e)
    end.
Proof.
  intros Hl. pose proof (lookup_lt_Some _ _ _ Hl) as Hlt.
  assert (assign_at (Z.of_nat i) setter rhs (<[i := t]> s) =
          match rhs with
          | Ok x => (<[i := setter x t]> s, Ok ())
          | Throw e => (<[i := t]> s, Throw e)
          end) as Hrun.
  { run. destruct (Z.ltb_spec (Z.of_nat i) 0) as [?|_]; [lia|].
    rewrite Nat2Z.id, list_lookup_insert_eq by done.
    destruct rhs as [x|e]; [|done].
    rewrite (alter_insert _ _ _ t), list_insert_insert_eq; [done|].
    by apply list_lookup_insert_eq. }
  destruct v; simpl; [reflexivity|..]; rewrite Hrun; by destruct rhs.
Qed.

Lemma field_step_ref {A : Type} (v : jsval) (setter : A → todo → todo)
    (rhs : result A) (name : jstring) (acc : list jstring)
    (s : list todo) (i : nat) (t0 t : todo) :
  s !! i = Some t0 →
  when_defined_push v (assign_ref i setter rhs) name acc (<[i := t]> s) =
    match field_update v setter rhs t with
    | Ok t' =>
        (<[i := t']> s, Ok (acc ++ if is_defined v then [name] else []))
    | Throw e => (<[i := t]> s, Throw e)
    end.
Proof.
  intros Hl. pose proof (lookup_lt_Some _ _ _ Hl) as Hlt.
  assert ((assign_ref i setter rhs;; mret (acc ++ [name])) (<[i := t]> s) =
          match rhs with
          | Ok x => (<[i := setter x t]> s, Ok (acc ++ [name]))
          | Throw e => (<[i := t]> s, Throw e)
          end) as Hrun.
  { run. destruct rhs as [x|e]; [|done].
    rewrite (alter_insert _ _ _ t), list_insert_insert_eq; [done|].
    by apply list_lookup_insert_eq. }
  destruct v; simpl; [by rewrite app_nil_r|..]; rewrite Hrun; by destruct rhs.
Qed.

(** What PUT does: the slot found for the id receives the record that the
    guarded assignments produce; a throwing conversion stops them. *)
Lemma put_todo_run (idp : jstring) (body : jsval) (s : list todo) :
  put_todo idp body s =
    match find (has_id (parseInt_string idp)) s with
    | None => (s, Ok (Response 404 (NotFound (parseInt_string idp))))
    | Some (i, t) =>
        let '(t', r) := apply_fields body t in
        (<[i := t']> s,
         match r with
         | Ok _ =>
             Ok (Response 200
                   (Updated t' (is_defined (get_prop body (str "title")),
                                is_defined (get_prop body (str "completed")),
                                is_defined (get_prop body (str "userId")))))
         | Throw e => Throw e
         end)
    end.
Proof.
  unfold put_todo. rewrite parseInt_JStr.
  unfold lift, get_store. unfold mbind at 1 2. unfold M_bind at 1 2.
  destruct (find _ s) as [[i t]|] eqn:Hf.
  2:{ by rewrite (findIndex_find_None _ _ Hf). }
  rewrite (findIndex_find_Some _ _ _ _ Hf).
  apply find_Some_lookup in Hf as [Hl _].
  pose proof (lookup_lt_Some _ _ _ Hl) as Hlt.
  destruct (Z.eqb_spec (Z.of_nat i) (-1)) as [?|_]; [lia|].
  unfold apply_fields.
  rewrite <- (list_insert_id _ _ _ Hl) at 1.
  unfold mbind, M_bind.
  rewrite (field_step_at _ _ _ _ _ _ _ Hl).
  destruct (field_update _ set_title _ t) as [t1|e]; [|done].
  rewrite (field_step_at _ _ _ _ _ _ _ Hl).
  destruct (field_update _ set_completed _ t1) as [t2|e]; [|done].
  rewrite (field_step_at _ _ _ _ _ _ _ Hl).
  destruct (field_update _ set_userId _ t2) as [t3|e]; [|done].
  unfold todo_at. destruct (Z.ltb_spec (Z.of_nat i) 0) as [?|_]; [lia|].
  by rewrite Nat2Z.id, list_lookup_insert_eq.
Qed.

(** What PATCH does: the same, through the reference returned by [find]. *)
Lemma patch_todo_run (idp : jstring) (body : jsval) (s : list todo) :
  patch_todo idp body s =
    match find (has_id (parseInt_string idp)) s with
    | None => (s, Ok (Response 404 (NotFound (parseInt_string idp))))
    | Some (i, t) =>
        let '(t', r) := apply_fields body t in
        (<[i := t']> s,
         match r with
         | Ok _ => Ok (Response 200 (PartiallyUpdated t' (updated_names body)))
         | Throw e => Throw e
         end)
    end.
Proof.
  unfold patch_todo. rewrite parseInt_JStr.
  unfold lift, get_store. unfold mbind at 1 2. unfold M_bind at 1 2.
  destruct (find _ s) as [[i t]|] eqn:Hf; [|done].
  apply find_Some_lookup in Hf as [Hl _].
  pose proof (lookup_lt_Some _ _ _ Hl) as Hlt.
  unfold apply_fields, updated_names.
  rewrite <- (list_insert_id _ _ _ Hl) at 1.
  unfold mbind, M_bind.
  rewrite (field_step_ref _ _ _ _ _ _ _ _ _ Hl).
  destruct (field_update _ set_title _ t) as [t1|e]; [|done].
  rewrite (field_step_ref _ _ _ _ _ _ _ _ _ Hl).
  destruct (field_update _ set_completed _ t1) as [t2|e]; [|done].
  rewrite (field_step_ref _ _ _ _ _ _ _ _ _ Hl).
  destruct (field_update _ set_userId _ t2) as [t3|e]; [|done].
  unfold deref. rewrite list_lookup_insert_eq by done.
  by rewrite <- app_assoc.
Qed.

Lemma apply_fields_id (body : jsval) (t : todo) : id (apply_fields body t).1 = id t.
Proof.
  unfold apply_fields, field_update.
  destruct (get_prop body (str "title")) as [| |b|n|x|l|o]; simpl;
    destruct (get_prop body (str "completed")); simpl;
    destruct (get_prop body (str "userId")); simpl; try done;
    destruct (parseInt _); done.
Qed.

(** When every supplied field converts, the assignments amount to the partial
    update of the specification. *)
Lemma apply_fields_supplied (body : jsval) (t : todo) title' userId' :
  supplied_title body = Ok title' →
  supplied_userId body = Ok userId' →
  apply_fields body t
  = (spec_partial_update title' (supplied_completed body) userId' t, Ok ()).
Proof.
  unfold supplied_title, supplied_userId, supplied_completed, apply_fields,
    field_update, spec_partial_update.
  destruct t as [u k ti c].
  destruct (get_prop body (str "title")) as [| |b|n|x|l|o]; intros [= <-];
    destruct (get_prop body (str "completed")); simpl;
    destruct (get_prop body (str "userId")); simpl;
    try (intros [= <-]; reflexivity);
    destruct (parseInt _); intros [= <-]; reflexivity.
Qed.

(** C4: PUT and PATCH are the same operation on the store: for every store,
    id and body they leave the same store and answer with the same status;
    when the id is found and the supplied fields convert, both write into the
    found slot the record with exactly the supplied fields replaced (title
    trimmed, completed coerced to a boolean, userId parsed as an integer) and
    answer 200 with it. *)
Theorem C4_put_patch_same_store (s : list todo) (idp : jstring) (body : jsval) :
  (app (PUT_todo idp body) s).1 = (app (PATCH_todo idp body) s).1
  ∧ status (app (PUT_todo idp body) s).2 = status (app (PATCH_todo idp body) s).2
  ∧ (∀ i t title' userId',
       find (has_id (parseInt_string idp)) s = Some (i, t) →
       supplied_title body = Ok title' →
       supplied_userId body = Ok userId' →
       let t' := spec_partial_update title' (supplied_completed body) userId' t in
       app (PUT_todo idp body) s
       = (<[i := t']> s,
          Response 200
            (Updated t' (is_defined (get_prop body (str "title")),
                         is_defined (get_prop body (str "completed")),
                         is_defined (get_prop body (str "userId")))))
       ∧ app (PATCH_todo idp body) s
         = (<[i := t']> s,
            Response 200 (PartiallyUpdated t' (updated_names body)))).
Proof.
  unfold app, error_handler, route. rewrite put_todo_run, patch_todo_run.
  split_and!.
  - destruct (find _ s) as [[i t]|]; [|done].
    by destruct (apply_fields body t) as [t' [[]|e]].
  - destruct (find _ s) as [[i t]|]; [|done].
    by destruct (apply_fields body t) as [t' [[]|e]].
  - intros i t title' userId' -> Ht Hu.
    by rewrite (apply_fields_supplied _ _ _ _ Ht Hu).
Qed.

Lemma C4_witness :
  let body := JObj [(str "title", JStr (str " a ")); (str "userId", JStr (str "7"))] in
  let t' := Todo (Int 7) 2 (str "a") true in
  app (PUT_todo (str "2") body) todos
  = (<[1%nat := t']> todos, Response 200 (Updated t' (true, false, true)))
  ∧ app (PATCH_todo (str "2") body) todos
    = (<[1%nat := t']> todos,
       Response 200 (PartiallyUpdated t' [str "title"; str "userId"])).
Proof.
  intros body t'.
  apply (proj2 (proj2 (C4_put_patch_same_store todos (str "2") body))
           1%nat (Todo (Int 1) 2 (str "quis ut nam facilis") true)
           (Some (str " a ")) (Some (Int 7))); reflexivity.
Defined.

(** A conversion that throws after an earlier field was written leaves that
    write in the store: PUT and PATCH agree on this too. *)
Example put_patch_partial_write :
  let body := JObj [(str "title", JStr (str "new"));
                    (str "userId", JObj [(str "toString", JNull)])] in
  app (PUT_todo (str "1") body) todos
  = (<[0%nat := Todo (Int 1) 1 (str "new") false]> todos,
     Response 500 InternalServerError)
  ∧ app (PATCH_todo (str "1") body) todos = app (PUT_todo (str "1") body) todos.
Proof. split; vm_compute; reflexivity. Qed.

(** ** A title that is not a string *)

(** C10: when the body's [title] is not a string, calling [trim] on it throws
    a [TypeError]: POST /todos, for a truthy title, and PUT and PATCH
    /todos/:id, for a defined title and an id in the store, are answered by
    the error handler with status 500, not with 400, and the store is left as
    it was. *)
Theorem C10_non_string_title_throws (s : list todo) (body : jsval) :
  (∀ x, get_prop body (str "title") ≠ JStr x) →
  (Boolean (get_prop body (str "title")) = true →
     route (POST_todos body) s = (s, Throw TypeError)
     ∧ app (POST_todos body) s = (s, Response 500 InternalServerError))
  ∧ (get_prop body (str "title") ≠ JUndefined →
     ∀ idp k, parseInt_string idp = Int k → k ∈ ids s →
       route (PUT_todo idp body) s = (s, Throw TypeError)
       ∧ app (PUT_todo idp body) s = (s, Response 500 InternalServerError)
       ∧ route (PATCH_todo idp body) s = (s, Throw TypeError)
       ∧ app (PATCH_todo idp body) s = (s, Response 500 InternalServerError)).
Proof.
  intros Hns. split.
  - intros Hb.
    assert (route (POST_todos body) s = (s, Throw TypeError)) as Hr.
    { simpl. rewrite post_todos_run, Hb. simpl.
      destruct (get_prop body (str "title")) as [| |b|n|x|l|o]; simpl;
        try (by destruct (parseInt _) as [|[]]).
      by destruct (Hns x). }
    split; [done|]. unfold app, error_handler. by rewrite Hr.
  - intros Hdef idp k Hk (i & t & Hf & _)%find_present.
    pose proof (find_Some_lookup _ _ _ _ Hf) as [Hl _].
    assert (apply_fields body t = (t, Throw TypeError)) as Ha.
    { unfold apply_fields, field_update.
      destruct (get_prop body (str "title")) as [| |b|n|x|l|o]; simpl; try done.
      by destruct (Hns x). }
    assert (route (PUT_todo idp body) s = (s, Throw TypeError)) as Hput.
    { simpl. by rewrite put_todo_run, Hk, Hf, Ha, (list_insert_id _ _ _ Hl). }
    assert (route (PATCH_todo idp body) s = (s, Throw TypeError)) as Hpatch.
    { simpl. by rewrite patch_todo_run, Hk, Hf, Ha, (list_insert_id _ _ _ Hl). }
    unfold app, error_handler. by rewrite Hput, Hpatch.
Qed.

Lemma C10_witness :
  let body := JObj [(str "title", JNum (Int 5))] in
  (route (POST_todos body) todos = (todos, Throw TypeError)
   ∧ app (POST_todos body) todos = (todos, Response 500 InternalServerError))
  ∧ route (PUT_todo (str "3") body) todos = (todos, Throw TypeError)
  ∧ app (PUT_todo (str "3") body) todos = (todos, Response 500 InternalServerError)
  ∧ route (PATCH_todo (str "3") body) todos = (todos, Throw TypeError)
  ∧ app (PATCH_todo (str "3") body) todos
    = (todos, Response 500 InternalServerError).
Proof.
  intros body.
  assert (∀ x, get_prop body (str "title") ≠ JStr x) as Hns by (intros x; discriminate).
  split.
  - apply (proj1 (C10_non_string_title_throws todos body Hns)). reflexivity.
  - apply (proj2 (C10_non_string_title_throws todos body Hns)) with (k := 3).
    + discriminate.
    + reflexivity.
    + apply (list_elem_of_lookup_2 _ 2%nat). reflexivity.
Defined.

(** ** GET /todos *)

Lemma get_todos_run (query : jsval) (s : list todo) :
  get_todos query s =
    match parseInt (get_prop query (str "limit")) with
    | Throw e => (s, Throw e)
    | Ok n =>
        let limit := num_or n (Z.of_nat (length s)) in
        if Boolean (get_prop query (str "userId")) then
          match parseInt (get_prop query (str "userId")) with
          | Throw e => (s, Throw e)
          | Ok u =>
              (s, Ok (Response 200 (TodoList (slice0 limit
                   (if num_truthy u
                    then filter (λ t, Is_true (has_userId u t)) s else s)))))
          end
        else (s, Ok (Response 200 (TodoList (slice0 limit s))))
    end.
Proof.
  unfold get_todos. run.
  destruct (parseInt (get_prop query (str "limit"))) as [n|e]; [|done].
  destruct (Boolean _); [|done].
  by destruct (parseInt (get_prop query (str "userId"))) as [u|e].
Qed.

(** A falsy value never parses to a truthy number. *)
Lemma parseInt_falsy (v : jsval) (u : jsnum) :
  Boolean v = false → parseInt v = Ok u → num_truthy u = false.
Proof.
  destruct v as [| |[]|[|z]|x|l|o]; simpl; try discriminate;
    try (intros _ [= <-]; reflexivity).
  - intros ->%negb_false_iff%Z.eqb_eq [= <-]. reflexivity.
  - unfold jstring_eqb. intros ->%negb_false_iff%bool_decide_eq_true [= <-].
    reflexivity.
Qed.

Lemma has_userId_Int (k : Z) (t : todo) :
  Is_true (has_userId (Int k) t) ↔ userId t = Int k.
Proof.
  unfold has_userId, strict_eq. destruct (userId t) as [|z]; [done|].
  rewrite Is_true_true, Z.eqb_eq. split; congruence.
Qed.

Lemma slice0_sublist {A : Type} (e : Z) (l : list A) : slice0 e l `sublist_of` l.
Proof. unfold slice0. apply sublist_take. Qed.

Lemma slice0_positive {A : Type} (z : Z) (l : list A) :
  0 < z → slice0 z l = take (Z.to_nat z) l.
Proof.
  intros Hz. unfold slice0. destruct (Z.ltb_spec z 0) as [?|_]; [lia|].
  destruct (Z.min_spec z (Z.of_nat (length l))) as [[_ ->]|[Hle ->]]; [done|].
  rewrite Nat2Z.id, !take_ge; [done|lia..].
Qed.

Lemma slice0_length {A : Type} (l k : list A) :
  (length l ≤ length k)%nat → slice0 (Z.of_nat (length k)) l = l.
Proof.
  intros Hle. unfold slice0.
  destruct (Z.ltb_spec (Z.of_nat (length k)) 0) as [?|_]; [lia|].
  apply take_ge. lia.
Qed.

(** C3 (as amended): the list answer is taken from the store in insertion
    order; a userId filter that parses to a non-zero integer keeps exactly the
    records with that userId, while an absent or empty filter, one that parses
    to 0 and one that does not parse leave the sequence unfiltered; a limit
    that parses to a positive integer truncates to its first [limit] elements,
    while an absent limit, 0 and an unparsable limit give the full length. *)
Theorem C3_list_filter_then_limit
    (s : list todo) (query : jsval) (n u : jsnum) :
  parseInt (get_prop query (str "limit")) = Ok n →
  parseInt (get_prop query (str "userId")) = Ok u →
  ∃ filtered l,
    app (GET_todos query) s = (s, Response 200 (TodoList l))
    ∧ l `sublist_of` s
    ∧ (∀ k, u = Int k → k ≠ 0 → filtered = filter (λ t, userId t = Int k) s)
    ∧ (num_truthy u = false → filtered = s)
    ∧ (∀ z, n = Int z → 0 < z → l = take (Z.to_nat z) filtered)
    ∧ (num_truthy n = false → l = filtered).
Proof.
  intros Hn Hu.
  exists (if num_truthy u then filter (λ t, Is_true (has_userId u t)) s else s).
  exists (slice0 (num_or n (Z.of_nat (length s)))
            (if num_truthy u then filter (λ t, Is_true (has_userId u t)) s else s)).
  split_and!.
  - unfold app, error_handler, route. rewrite get_todos_run, Hn, Hu. simpl.
    destruct (Boolean _) eqn:Hb; [done|].
    by rewrite (parseInt_falsy _ _ Hb Hu).
  - etrans; [apply slice0_sublist|].
    destruct (num_truthy u); [apply sublist_filter|done].
  - intros k -> Hk. simpl. destruct (Z.eqb_spec k 0) as [?|_]; [done|]. simpl.
    apply list_filter_iff. intros t. apply has_userId_Int.
  - by intros ->.
  - intros z -> Hz. simpl. destruct (Z.eqb_spec z 0) as [?|_]; [lia|]. simpl.
    by apply slice0_positive.
  - intros Hf. assert (num_or n (Z.of_nat (length s)) = Z.of_nat (length s)) as ->.
    { destruct n as [|z]; [done|]. simpl in *. by rewrite Hf. }
    apply slice0_length.
    destruct (num_truthy u); [apply length_filter|done].
Qed.

Lemma C3_witness :
  let query := JObj [(str "userId", JStr (str "1")); (str "limit", JStr (str "2"))] in
  ∃ filtered l,
    app (GET_todos query) todos = (todos, Response 200 (TodoList l))
    ∧ l `sublist_of` todos
    ∧ (∀ k, Int 1 = Int k → k ≠ 0 → filtered = filter (λ t, userId t = Int k) todos)
    ∧ (num_truthy (Int 1) = false → filtered = todos)
    ∧ (∀ z, Int 2 = Int z → 0 < z → l = take (Z.to_nat z) filtered)
    ∧ (num_truthy (Int 2) = false → l = filtered).
Proof.
  intros query.
  apply (C3_list_filter_then_limit todos query (Int 2) (Int 1)); reflexivity.
Defined.

(** The example of the specification: [GET /todos?userId=1&limit=2] on the
    seed data. *)
Example get_todos_userId_1_limit_2 :
  app (GET_todos (JObj [(str "userId", JStr (str "1")); (str "limit", JStr (str "2"))]))
      todos
  = (todos,
     Response 200
       (TodoList [Todo (Int 1) 1 (str "delectus aut autem") false;
                  Todo (Int 1) 2 (str "quis ut nam facilis") true])).
Proof. vm_compute. reflexivity. Qed.

(** C3 fails as stated: [?userId=0] is supplied and parses to 0, yet the
    answer is the whole seed data, of which no record has userId 0; and
    [?limit=0] is supplied, yet the answer is not truncated to the first 0
    elements. *)
Lemma C3_zero_filter_and_zero_limit_ignored :
  parseInt (JStr (str "0")) = Ok (Int 0)
  ∧ (app (GET_todos (JObj [(str "userId", JStr (str "0"))])) todos).2
    = Response 200 (TodoList todos)
  ∧ filter (λ t, userId t = Int 0) todos = []
  ∧ (app (GET_todos (JObj [(str "limit", JStr (str "0"))])) todos).2
    = Response 200 (TodoList todos)
  ∧ take 0 todos = []
  ∧ todos ≠ [].
Proof. split_and!; try (vm_compute; reflexivity). discriminate. Qed.

(** A negative limit reaches [slice] as it is and drops elements from the
    end. *)
Example get_todos_negative_limit :
  (app (GET_todos (JObj [(str "limit", JStr (str "-1"))])) todos).2
  = Response 200 (TodoList (take 4 todos)).
Proof. vm_compute. reflexivity. Qed.

(** ** POST /todos/:id/complete *)

Lemma complete_todo_run (idp : jstring) (body : jsval) (s : list todo) :
  complete_todo idp body s =
    match find (has_id (parseInt_string idp)) s with
    | Some (i, t) =>
        let c := Boolean (get_prop_default body (str "completed") (JBool true)) in
        (<[i := set_completed c t]> s,
         Ok (Response 200 (MarkedCompleted (set_completed c t) c)))
    | None => (s, Ok (Response 404 (NotFound (parseInt_string idp))))
    end.
Proof.
  unfold complete_todo. rewrite parseInt_JStr. run.
  destruct (find _ s) as [[i t]|] eqn:Hf; [|done].
  apply find_Some_lookup in Hf as [Hl _].
  rewrite list_lookup_alter_eq, Hl. simpl.
  by rewrite (alter_insert _ _ _ _ Hl).
Qed.

(** ** The invariants of the store *)

(** How one request can change the store: not at all, by appending a record
    with the next id, by rewriting fields other than [id] of one record, or by
    removing one record. *)
Lemma app_store_change (r : request) (s : list todo) :
  (app r s).1 = s
  ∨ (∃ t, (app r s).1 = s ++ [t] ∧ id t = max_id s + 1
          ∧ parseInt (get_prop_default (request_body r) (str "userId")
                        (JNum (Int 1))) = Ok (userId t))
  ∨ (∃ i t t', s !! i = Some t ∧ (app r s).1 = <[i := t']> s ∧ id t' = id t
               ∧ (userId t' = userId t
                  ∨ (get_prop (request_body r) (str "userId") ≠ JUndefined
                     ∧ parseInt (get_prop (request_body r) (str "userId"))
                       = Ok (userId t'))))
  ∨ (∃ i, (app r s).1 = delete i s).
Proof.
  unfold app, error_handler. destruct r as [q|idp|b|idp b|idp b|idp|idp|idp b]; simpl.
  - left. rewrite get_todos_run.
    destruct (parseInt (get_prop q (str "limit"))); [|done].
    destruct (Boolean _); [|done].
    by destruct (parseInt (get_prop q (str "userId"))).
  - left. rewrite get_todo_run. by destruct (find _ s) as [[i t]|].
  - rewrite post_todos_run. destruct (negb _); [by left|].
    destruct (parseInt _) as [u|e] eqn:Hu; [|by left].
    destruct (call_trim _) as [x|e]; [|by left].
    right; left. by eexists.
  - rewrite put_todo_run. destruct (find _ s) as [[i t]|] eqn:Hf; [|by left].
    apply find_Some_lookup in Hf as [Hl _].
    right; right; left. exists i, t, (apply_fields b t).1.
    split_and!; [done| |apply apply_fields_id|].
    + by destruct (apply_fields b t) as [t' [[]|e]].
    + unfold apply_fields, field_update.
      destruct (get_prop b (str "title")); simpl;
        destruct (get_prop b (str "completed")); simpl;
        destruct (get_prop b (str "userId")) eqn:Hp; simpl;
        try (by left);
        destruct (parseInt _) eqn:Hu; simpl; try (by left); by right.
  - rewrite patch_todo_run. destruct (find _ s) as [[i t]|] eqn:Hf; [|by left].
    apply find_Some_lookup in Hf as [Hl _].
    right; right; left. exists i, t, (apply_fields b t).1.
    split_and!; [done| |apply apply_fields_id|].
    + by destruct (apply_fields b t) as [t' [[]|e]].
    + unfold apply_fields, field_update.
      destruct (get_prop b (str "title")); simpl;
        destruct (get_prop b (str "completed")); simpl;
        destruct (get_prop b (str "userId")) eqn:Hp; simpl;
        try (by left);
        destruct (parseInt _) eqn:Hu; simpl; try (by left); by right.
  - rewrite delete_todo_run. destruct (find _ s) as [[i t]|]; [|by left].
    right; right; right. by exists i.
  - rewrite toggle_todo_run. destruct (find _ s) as [[i t]|] eqn:Hf; [|by left].
    apply find_Some_lookup in Hf as [Hl _].
    right; right; left. exists i, t, (flip_completed t). split_and!; try done.
    by left.
  - rewrite complete_todo_run. destruct (find _ s) as [[i t]|] eqn:Hf; [|by left].
    apply find_Some_lookup in Hf as [Hl _].
    right; right; left. eexists i, t, _. split_and!; try done. by left.
Qed.

Lemma ids_insert_same_id (s : list todo) (i : nat) (t t' : todo) :
  s !! i = Some t → id t' = id t → ids (<[i := t']> s) = ids s.
Proof.
  intros Hl Hid. unfold ids. rewrite list_fmap_insert, Hid.
  apply list_insert_id. by rewrite list_lookup_fmap, Hl.
Qed.

Lemma app_unique_ids (r : request) (s : list todo) :
  unique_ids s → unique_ids (app r s).1.
Proof.
  intros Hnd.
  destruct (app_store_change r s)
    as [->|[(t & -> & Hid & _)|[(i & t & t' & Hl & -> & Hid & _)|[i ->]]]].
  - done.
  - unfold unique_ids, ids. rewrite fmap_app. apply NoDup_app. split_and!.
    + done.
    + intros k Hk ->%list_elem_of_singleton.
      rewrite Hid in Hk. by apply max_id_fresh in Hk.
    + apply NoDup_singleton.
  - unfold unique_ids. by rewrite (ids_insert_same_id _ _ _ _ Hl Hid).
  - by apply unique_ids_delete.
Qed.

Lemma is_defined_true (v : jsval) : is_defined v = true ↔ v ≠ JUndefined.
Proof. by destruct v. Qed.

Lemma is_defined_false (v : jsval) : is_defined v = false ↔ v = JUndefined.
Proof. by destruct v. Qed.

Lemma get_prop_default_defined (o : jsval) (k : jstring) (d : jsval) :
  get_prop o k ≠ JUndefined → get_prop_default o k d = get_prop o k.
Proof. unfold get_prop_default. by destruct (get_prop o k). Qed.

(** A property of numbers that holds of 1, of every userId in the store and
    of what [parseInt] makes of the userId of the request holds of every userId
    in the store after the request. *)
Lemma app_userId_invariant (P : jsnum → bool) (r : request) (s : list todo) :
  P (Int 1) = true →
  (get_prop (request_body r) (str "userId") = JUndefined
   ∨ ∀ u, parseInt (get_prop (request_body r) (str "userId")) = Ok u →
          P u = true) →
  Forall (λ t, P (userId t) = true) s →
  Forall (λ t, P (userId t) = true) (app r s).1.
Proof.
  intros Hone Hp Hall.
  assert (∀ u, get_prop (request_body r) (str "userId") ≠ JUndefined →
               parseInt (get_prop (request_body r) (str "userId")) = Ok u →
               P u = true) as Hconv.
  { intros u Hdef Hu. destruct Hp as [?|Hp]; [done|by apply Hp]. }
  destruct (app_store_change r s)
    as [->|[(t & -> & _ & Hu)|[(i & t & t' & Hl & -> & _ & Hu)|[i ->]]]].
  - done.
  - apply Forall_app. split; [done|]. apply Forall_singleton.
    destruct (is_defined (get_prop (request_body r) (str "userId"))) eqn:Hg.
    + apply is_defined_true in Hg.
      apply Hconv; [done|].
      by rewrite <- (get_prop_default_defined _ _ (JNum (Int 1)) Hg).
    + apply is_defined_false in Hg. unfold get_prop_default in Hu.
      rewrite Hg in Hu. by injection Hu as <-.
  - apply Forall_insert; [done|]. destruct Hu as [->|[Hdef Hu]].
    + by eapply (Forall_lookup_1 (λ t, P (userId t) = true)) in Hall.
    + by apply Hconv.
  - by apply Forall_delete.
Qed.

Lemma is_safe_int_is_int (n : jsnum) : is_safe_int n = true → is_int n = true.
Proof. by destruct n. Qed.

Lemma app_int_userIds (r : request) (s : list todo) :
  userId_parses r → int_userIds s → int_userIds (app r s).1.
Proof.
  intros Hp. apply (app_userId_invariant is_int); [done|].
  destruct Hp as [?|Hp]; [by left|right].
  intros u Hu. by apply is_safe_int_is_int, Hp.
Qed.

Lemma app_safe_userIds (r : request) (s : list todo) :
  userId_parses r → safe_userIds s → safe_userIds (app r s).1.
Proof. intros Hp. by apply (app_userId_invariant is_safe_int). Qed.

(** C9 (as amended): every request (list, get, create, replace, partial
    update, delete, toggle, set-completed) preserves that ids, which are
    integers, are pairwise distinct; and it preserves that every userId is an
    integer, and that every userId is an integer of magnitude at most 2^53,
    provided the userId of its body, if there is one, is read by [parseInt]
    as an integer of magnitude at most 2^53, the range in which [parseInt]
    returns the integer it reads. *)
Theorem C9_requests_preserve_invariants (r : request) (s : list todo) :
  (unique_ids s → unique_ids (app r s).1)
  ∧ (userId_parses r → int_userIds s → int_userIds (app r s).1)
  ∧ (userId_parses r → safe_userIds s → safe_userIds (app r s).1).
Proof.
  split_and!; [apply app_unique_ids|apply app_int_userIds|apply app_safe_userIds].
Qed.

Lemma todos_int_userIds : int_userIds todos.
Proof. unfold int_userIds, todos. repeat constructor. Qed.

Lemma todos_safe_userIds : safe_userIds todos.
Proof. unfold safe_userIds, todos. repeat constructor. Qed.

Lemma C9_witness :
  let r := PUT_todo (str "1") (JObj [(str "userId", JStr (str "7"))]) in
  unique_ids (app r todos).1 ∧ int_userIds (app r todos).1
  ∧ safe_userIds (app r todos).1
  ∧ (app r todos).1 !! 0%nat = Some (Todo (Int 7) 1 (str "delectus aut autem") false).
Proof.
  intros r.
  assert (userId_parses r) as Hp.
  { right. intros u Hu. vm_compute in Hu. injection Hu as <-. reflexivity. }
  split_and!.
  - apply (proj1 (C9_requests_preserve_invariants r todos)), todos_unique_ids.
  - apply (proj1 (proj2 (C9_requests_preserve_invariants r todos)) Hp).
    apply todos_int_userIds.
  - apply (proj2 (proj2 (C9_requests_preserve_invariants r todos)) Hp).
    apply todos_safe_userIds.
  - reflexivity.
Defined.

(** C9 fails as stated: a userId that is a non-numeric string is stored as
    [NaN], by PUT (and PATCH) in an existing record and by POST in the new
    one. *)
Lemma C9_non_numeric_userId_stored_as_NaN :
  let body := JObj [(str "title", JStr (str "x")); (str "userId", JStr (str "abc"))] in
  int_userIds todos
  ∧ (app (PUT_todo (str "1") body) todos).2
    = Response 200 (Updated (Todo NaN 1 (str "x") false) (true, false, true))
  ∧ (app (PUT_todo (str "1") body) todos).1 !! 0%nat
    = Some (Todo NaN 1 (str "x") false)
  ∧ ¬ int_userIds (app (PUT_todo (str "1") body) todos).1
  ∧ (app (PATCH_todo (str "1") body) todos).1
    = (app (PUT_todo (str "1") body) todos).1
  ∧ (app (POST_todos body) todos).2
    = Response 201 (Created (Todo NaN 6 (str "x") false))
  ∧ ¬ int_userIds (app (POST_todos body) todos).1.
Proof.
  intros body. split_and!; try (vm_compute; reflexivity).
  - apply todos_int_userIds.
  - intros H. apply (Forall_lookup_1 _ _ 0%nat (Todo NaN 1 (str "x") false)) in H;
      [discriminate|reflexivity].
  - intros H. apply (Forall_lookup_1 _ _ 5%nat (Todo NaN 6 (str "x") false)) in H;
      [discriminate|reflexivity].
Qed.

(** Every store the service can reach from the seed data has pairwise
    distinct ids. *)
Lemma reachable_unique_ids (s : list todo) : reachable s → unique_ids s.
Proof.
  induction 1 as [|r s _ IH]; [apply todos_unique_ids|by apply app_unique_ids].
Qed.

(** * Further properties of the handlers *)

(** ** Ids that match no record *)

(** X1: when no record carries the parsed path id (an id that does not parse
    included), PUT, PATCH, toggle and complete answer 404 with that id and
    leave the store as it was, whatever the body: the lookup comes before any
    use of the body. *)
Theorem X1_absent_id_is_404_before_body
    (s : list todo) (idp : jstring) (body : jsval) :
  (∀ t, t ∈ s → Int (id t) ≠ parseInt_string idp) →
  app (PUT_todo idp body) s = (s, Response 404 (NotFound (parseInt_string idp)))
  ∧ app (PATCH_todo idp body) s
    = (s, Response 404 (NotFound (parseInt_string idp)))
  ∧ app (POST_toggle idp) s = (s, Response 404 (NotFound (parseInt_string idp)))
  ∧ app (POST_complete idp body) s
    = (s, Response 404 (NotFound (parseInt_string idp))).
Proof.
  intros Habs%find_None_absent. unfold app, error_handler, route.
  rewrite put_todo_run, patch_todo_run, toggle_todo_run, complete_todo_run.
  by rewrite Habs.
Qed.

Lemma X1_witness :
  let body := JObj [(str "title", JNum (Int 5))] in
  parseInt_string (str "abc") = NaN
  ∧ app (PUT_todo (str "abc") body) todos = (todos, Response 404 (NotFound NaN))
  ∧ app (PATCH_todo (str "abc") body) todos = (todos, Response 404 (NotFound NaN))
  ∧ app (POST_toggle (str "abc")) todos = (todos, Response 404 (NotFound NaN))
  ∧ app (POST_complete (str "abc") body) todos
    = (todos, Response 404 (NotFound NaN)).
Proof.
  intros body. split; [reflexivity|].
  apply (X1_absent_id_is_404_before_body todos (str "abc") body).
  apply find_None_absent. vm_compute. reflexivity.
Defined.

(** ** GET /todos/:id on a stored record *)

(** X2: in a store with pairwise distinct ids, GET /todos/:id with the id of a
    stored record answers 200 with that very record and leaves the store as it
    was. *)
Theorem X2_get_returns_the_record
    (s : list todo) (idp : jstring) (i : nat) (t : todo) :
  unique_ids s →
  s !! i = Some t →
  parseInt_string idp = Int (id t) →
  app (GET_todo idp) s = (s, Response 200 (TodoItem t)).
Proof.
  intros Hnd Hl Hidp. apply (get_todo_found s idp i t).
  rewrite Hidp. by apply find_unique.
Qed.

Lemma X2_witness :
  app (GET_todo (str "5")) todos
  = (todos, Response 200 (TodoItem (Todo (Int 2) 5 (str "laboriosam mollitia") false))).
Proof.
  apply (X2_get_returns_the_record todos (str "5") 4%nat).
  - apply todos_unique_ids.
  - reflexivity.
  - reflexivity.
Defined.

(** ** POST /todos/:id/complete *)

Lemma set_completed_set_completed (a b : bool) (t : todo) :
  set_completed a (set_completed b t) = set_completed a t.
Proof. by destruct t. Qed.

Lemma complete_after_write (s : list todo) (idp : jstring) (body : jsval) i t b :
  find (has_id (parseInt_string idp)) s = Some (i, t) →
  app (POST_complete idp body) (<[i := set_completed b t]> s)
  = app (POST_complete idp body) s.
Proof.
  intros Hf. unfold app, error_handler, route. rewrite !complete_todo_run.
  rewrite (find_insert_same_id _ _ _ _ (set_completed b t) Hf) by done.
  rewrite Hf. cbv zeta.
  by rewrite set_completed_set_completed, list_insert_insert_eq.
Qed.

(** X3: set-completed absorbs what toggle and set-completed did before it to
    the same id: after a toggle or a complete, a complete gives the store and
    the answer it would have given without them. In particular it is
    idempotent. *)
Theorem X3_complete_absorbs_earlier_writes
    (s : list todo) (idp : jstring) (body body' : jsval) :
  app (POST_complete idp body) (app (POST_toggle idp) s).1
  = app (POST_complete idp body) s
  ∧ app (POST_complete idp body) (app (POST_complete idp body') s).1
    = app (POST_complete idp body) s
  ∧ (app (POST_complete idp body) (app (POST_complete idp body) s).1).1
    = (app (POST_complete idp body) s).1.
Proof.
  assert (∀ b', app (POST_complete idp body) (app (POST_complete idp b') s).1
                = app (POST_complete idp body) s) as Hc.
  { intros b'. unfold app at 2. unfold error_handler, route.
    rewrite complete_todo_run.
    destruct (find _ s) as [[i t]|] eqn:Hf; [|done].
    by apply complete_after_write. }
  split_and!; [|apply Hc|by rewrite Hc].
  unfold app at 2. unfold error_handler, route. rewrite toggle_todo_run.
  destruct (find _ s) as [[i t]|] eqn:Hf; [|done].
  by apply complete_after_write.
Qed.

(** X4: for a record found for the id, a body without [completed] marks it
    completed (the default is [true]); a supplied value is coerced by
    truthiness, so [null] - which is not [undefined] and does not take the
    default - marks it not completed. Only [completed] of that record is
    written. *)
Theorem X4_complete_default_and_null
    (s : list todo) (idp : jstring) (body : jsval) (i : nat) (t : todo) :
  find (has_id (parseInt_string idp)) s = Some (i, t) →
  (get_prop body (str "completed") = JUndefined →
     app (POST_complete idp body) s
     = (<[i := set_completed true t]> s,
        Response 200 (MarkedCompleted (set_completed true t) true)))
  ∧ (get_prop body (str "completed") = JNull →
     app (POST_complete idp body) s
     = (<[i := set_completed false t]> s,
        Response 200 (MarkedCompleted (set_completed false t) false)))
  ∧ (∀ j, j ≠ i → (app (POST_complete idp body) s).1 !! j = s !! j)
  ∧ ids (app (POST_complete idp body) s).1 = ids s.
Proof.
  intros Hf. pose proof (find_Some_lookup _ _ _ _ Hf) as [Hl _].
  unfold app, error_handler, route. rewrite complete_todo_run, Hf.
  unfold get_prop_default. split_and!.
  - by intros ->.
  - by intros ->.
  - intros j Hj. simpl. by rewrite list_lookup_insert_ne.
  - simpl. by apply (ids_insert_same_id _ _ t).
Qed.

Lemma X4_witness :
  app (POST_complete (str "1") (JObj [])) todos
  = (<[0%nat := Todo (Int 1) 1 (str "delectus aut autem") true]> todos,
     Response 200
       (MarkedCompleted (Todo (Int 1) 1 (str "delectus aut autem") true) true))
  ∧ app (POST_complete (str "2") (JObj [(str "completed", JNull)])) todos
    = (<[1%nat := Todo (Int 1) 2 (str "quis ut nam facilis") false]> todos,
       Response 200
         (MarkedCompleted (Todo (Int 1) 2 (str "quis ut nam facilis") false) false)).
Proof.
  split.
  - apply (proj1 (X4_complete_default_and_null todos (str "1") (JObj []) 0%nat
                    (Todo (Int 1) 1 (str "delectus aut autem") false) eq_refl)).
    reflexivity.
  - apply (proj1 (proj2 (X4_complete_default_and_null todos (str "2")
                           (JObj [(str "completed", JNull)]) 1%nat
                           (Todo (Int 1) 2 (str "quis ut nam facilis") true)
                           eq_refl))).
    reflexivity.
Defined.

(** X5: toggle is set-completed with the negation of the stored value: on a
    record found for the id both leave the same store. *)
Theorem X5_toggle_is_complete_with_negation
    (s : list todo) (idp : jstring) (i : nat) (t : todo) :
  find (has_id (parseInt_string idp)) s = Some (i, t) →
  (app (POST_toggle idp) s).1
  = (app (POST_complete idp
            (JObj [(str "completed", JBool (negb (completed t)))])) s).1.
Proof.
  intros Hf. unfold app, error_handler, route.
  rewrite toggle_todo_run, complete_todo_run, Hf.
  unfold flip_completed. simpl. by destruct (completed t).
Qed.

Lemma X5_witness :
  (app (POST_toggle (str "4")) todos).1
  = (app (POST_complete (str "4") (JObj [(str "completed", JBool (negb true))]))
       todos).1.
Proof.
  apply (X5_toggle_is_complete_with_negation todos (str "4") 3%nat
           (Todo (Int 1) 4 (str "et porro tempora") true)).
  reflexivity.
Defined.

(** ** Which requests change the sequence of ids *)

(** X6: the sequence of ids, and so the length of the store, changes only by a
    create answered 201, which appends the id [max(ids, 0) + 1], and by a
    delete answered 200, which removes one position; a create with any other
    answer (400, 500) and a delete answered 404 leave the store as it was, and
    no other request changes the ids. *)
Theorem X6_ids_change_only_by_create_and_delete (r : request) (s : list todo) :
  match r with
  | POST_todos _ =>
      (status (app r s).2 = 201
       ∧ ∃ t, (app r s).1 = s ++ [t] ∧ ids (app r s).1 = ids s ++ [max_id s + 1])
      ∨ (status (app r s).2 ≠ 201 ∧ (app r s).1 = s)
  | DELETE_todo _ =>
      (status (app r s).2 = 200
       ∧ ∃ i, (i < length s)%nat ∧ (app r s).1 = delete i s
              ∧ ids (app r s).1 = delete i (ids s))
      ∨ (status (app r s).2 = 404 ∧ (app r s).1 = s)
  | _ => ids (app r s).1 = ids s ∧ length (app r s).1 = length s
  end.
Proof.
  assert (∀ r', (∀ b, r' ≠ POST_todos b) → (∀ p, r' ≠ DELETE_todo p) →
                ids (app r' s).1 = ids s ∧ length (app r' s).1 = length s) as Hrest.
  { intros r' Hpost Hdel.
    assert (ids (app r' s).1 = ids s) as Hids.
    { unfold app, error_handler.
      destruct r' as [q|idp|b|idp b|idp b|idp|idp|idp b]; simpl.
      - rewrite get_todos_run.
        destruct (parseInt (get_prop q (str "limit"))); [|done].
        destruct (Boolean _); [|done].
        by destruct (parseInt (get_prop q (str "userId"))).
      - rewrite get_todo_run. by destruct (find _ s) as [[i t]|].
      - by destruct (Hpost b).
      - rewrite put_todo_run. destruct (find _ s) as [[i t]|] eqn:Hf; [|done].
        apply find_Some_lookup in Hf as [Hl _].
        pose proof (apply_fields_id b t) as Hid.
        destruct (apply_fields b t) as [t' [[]|e]]; simpl;
          by apply (ids_insert_same_id _ _ t).
      - rewrite patch_todo_run. destruct (find _ s) as [[i t]|] eqn:Hf; [|done].
        apply find_Some_lookup in Hf as [Hl _].
        pose proof (apply_fields_id b t) as Hid.
        destruct (apply_fields b t) as [t' [[]|e]]; simpl;
          by apply (ids_insert_same_id _ _ t).
      - by destruct (Hdel idp).
      - rewrite toggle_todo_run. destruct (find _ s) as [[i t]|] eqn:Hf; [|done].
        apply find_Some_lookup in Hf as [Hl _]. simpl.
        by apply (ids_insert_same_id _ _ t).
      - rewrite complete_todo_run. destruct (find _ s) as [[i t]|] eqn:Hf; [|done].
        apply find_Some_lookup in Hf as [Hl _]. simpl.
        by apply (ids_insert_same_id _ _ t). }
    split; [done|]. apply (f_equal length) in Hids. unfold ids in Hids.
    by rewrite !length_fmap in Hids. }
  destruct r as [q|idp|b|idp b|idp b|idp|idp|idp b];
    try (apply Hrest; intros; discriminate).
  - unfold app, error_handler, route. rewrite post_todos_run.
    destruct (negb _); [right; split; [simpl; lia|done]|].
    destruct (parseInt _) as [u|e]; [|right; split; [simpl; lia|done]].
    destruct (call_trim _) as [x|e]; [|right; split; [simpl; lia|done]].
    left. split; [done|]. eexists. split; [done|]. simpl.
    unfold ids. by rewrite fmap_app.
  - unfold app, error_handler, route. rewrite delete_todo_run.
    destruct (find _ s) as [[i t]|] eqn:Hf; [|by right].
    apply find_Some_lookup in Hf as [Hl _].
    left. split; [done|]. exists i. split_and!; [|done|apply ids_delete].
    by eapply lookup_lt_Some.
Qed.

(** ** Ids are positive *)

Lemma app_positive_ids (r : request) (s : list todo) :
  Forall (λ t, 1 ≤ id t) s → Forall (λ t, 1 ≤ id t) (app r s).1.
Proof.
  intros Hpos.
  destruct (app_store_change r s)
    as [->|[(t & -> & Hid & _)|[(i & t & t' & Hl & -> & Hid & _)|[i ->]]]].
  - done.
  - apply Forall_app. split; [done|]. apply Forall_singleton.
    pose proof (max_id_nonneg s). lia.
  - apply Forall_insert; [done|]. rewrite Hid.
    by eapply (Forall_lookup_1 (λ t, 1 ≤ id t)) in Hpos.
  - by apply Forall_delete.
Qed.

(** X7: every store the service can reach from the seed data holds only
    positive ids: a create gives [max(ids, 0) + 1], at least 1 (1 on the empty
    store), and no other request writes an id. *)
Theorem X7_reachable_ids_positive (s : list todo) :
  reachable s → ∀ t, t ∈ s → 1 ≤ id t.
Proof.
  intros Hr. apply Forall_forall.
  induction Hr as [|r s _ IH]; [|by apply app_positive_ids].
  unfold todos. repeat constructor; simpl; lia.
Qed.

Lemma X7_witness :
  Forall (λ t, 1 ≤ id t)
    (app (POST_todos (JObj [(str "title", JStr (str "x"))]))
       (app (DELETE_todo (str "1")) todos).1).1.
Proof.
  apply Forall_forall.
  apply (X7_reachable_ids_positive
           (app (POST_todos (JObj [(str "title", JStr (str "x"))]))
              (app (DELETE_todo (str "1")) todos).1).1).
  apply reachable_step, reachable_step, reachable_seed.
Defined.

(** ** Stored titles are trimmed *)

Lemma trim_start_head (s : jstring) (c : Z) :
  head (trim_start s) = Some c → is_white_space c = false.
Proof.
  induction s as [|d s IH]; simpl; [done|].
  destruct (is_white_space d) eqn:Hd; [done|]. by intros [= <-].
Qed.

Lemma trim_start_suffix (s : jstring) : trim_start s `suffix_of` s.
Proof.
  induction s as [|d s IH]; simpl; [done|].
  destruct (is_white_space d); [by apply suffix_cons_r|done].
Qed.

Lemma trim_start_fixed (s : jstring) :
  (∀ c, head s = Some c → is_white_space c = false) → trim_start s = s.
Proof. destruct s as [|d s]; simpl; [done|]. intros H. by rewrite (H d). Qed.

Lemma trim_end_prefix (s : jstring) : trim_end s `prefix_of` s.
Proof.
  unfold trim_end. apply prefix_suffix_reverse.
  rewrite reverse_involutive. apply trim_start_suffix.
Qed.

Lemma trim_end_last (s : jstring) (c : Z) :
  last (trim_end s) = Some c → is_white_space c = false.
Proof. unfold trim_end. rewrite last_reverse. apply trim_start_head. Qed.

Lemma trim_end_fixed (s : jstring) :
  (∀ c, last s = Some c → is_white_space c = false) → trim_end s = s.
Proof.
  intros H. unfold trim_end. rewrite trim_start_fixed.
  - apply reverse_involutive.
  - intros c. rewrite head_reverse. apply H.
Qed.

Lemma trim_no_outer_space (x : jstring) : no_outer_space (trim x) = true.
Proof.
  unfold no_outer_space, trim. apply andb_true_iff. split.
  - destruct (head (trim_end (trim_start x))) as [c|] eqn:Hh; [|done].
    apply negb_true_iff, (trim_start_head x).
    apply head_Some in Hh as [l' Hl'].
    destruct (trim_end_prefix (trim_start x)) as [k Hk].
    rewrite Hl' in Hk. by rewrite Hk.
  - destruct (last (trim_end (trim_start x))) as [c|] eqn:Hh; [|done].
    by apply negb_true_iff, (trim_end_last (trim_start x)).
Qed.

Lemma no_outer_space_trim_fixed (x : jstring) :
  no_outer_space x = true → trim x = x.
Proof.
  unfold no_outer_space, trim. intros [Hh Hl]%andb_true_iff.
  rewrite (trim_start_fixed x).
  - apply trim_end_fixed. intros c Hc. rewrite Hc in Hl.
    by apply negb_true_iff.
  - intros c Hc. rewrite Hc in Hh. by apply negb_true_iff.
Qed.

(** Where the title of a record of the store after a request comes from: it
    is the title of a record of the store before, or a result of [trim]. *)
Lemma app_title_origin (r : request) (s : list todo) :
  Forall (λ t', (∃ t, t ∈ s ∧ title t' = title t) ∨ ∃ x, title t' = trim x)
    (app r s).1.
Proof.
  assert (Forall (λ t', (∃ t, t ∈ s ∧ title t' = title t)
                        ∨ ∃ x, title t' = trim x) s) as Hs.
  { apply Forall_forall. intros t Ht. left. by exists t. }
  assert (∀ b i t, s !! i = Some t →
            Forall (λ t', (∃ t, t ∈ s ∧ title t' = title t)
                          ∨ ∃ x, title t' = trim x)
              (<[i := (apply_fields b t).1]> s)) as Hupd.
  { intros b i t Hl. apply Forall_insert; [done|].
    unfold apply_fields, field_update.
    destruct (get_prop b (str "title")) as [| |v|n|x|l|o]; simpl;
      destruct (get_prop b (str "completed")); simpl;
      destruct (get_prop b (str "userId")); simpl;
      try destruct (parseInt _); simpl;
      first [ by right; eexists
            | left; exists t; split; [by eapply list_elem_of_lookup_2|done] ]. }
  unfold app, error_handler.
  destruct r as [q|idp|b|idp b|idp b|idp|idp|idp b]; simpl.
  - rewrite get_todos_run.
    destruct (parseInt (get_prop q (str "limit"))); [|done].
    destruct (Boolean _); [|done].
    by destruct (parseInt (get_prop q (str "userId"))).
  - rewrite get_todo_run. by destruct (find _ s) as [[i t]|].
  - rewrite post_todos_run. destruct (negb _); [done|].
    destruct (parseInt _) as [u|e]; [|done].
    destruct (get_prop b (str "title")) as [| |v|n|x|l|o]; simpl; try done.
    apply Forall_app. split; [done|]. apply Forall_singleton. right. by eexists.
  - rewrite put_todo_run. destruct (find _ s) as [[i t]|] eqn:Hf; [|done].
    apply find_Some_lookup in Hf as [Hl _].
    specialize (Hupd b i t Hl). by destruct (apply_fields b t) as [t' [[]|e]].
  - rewrite patch_todo_run. destruct (find _ s) as [[i t]|] eqn:Hf; [|done].
    apply find_Some_lookup in Hf as [Hl _].
    specialize (Hupd b i t Hl). by destruct (apply_fields b t) as [t' [[]|e]].
  - rewrite delete_todo_run. destruct (find _ s) as [[i t]|]; [|done].
    by apply Forall_delete.
  - rewrite toggle_todo_run. destruct (find _ s) as [[i t]|] eqn:Hf; [|done].
    apply find_Some_lookup in Hf as [Hl _]. simpl.
    apply Forall_insert; [done|]. left. exists t.
    split; [by eapply list_elem_of_lookup_2|done].
  - rewrite complete_todo_run. destruct (find _ s) as [[i t]|] eqn:Hf; [|done].
    apply find_Some_lookup in Hf as [Hl _]. simpl.
    apply Forall_insert; [done|]. left. exists t.
    split; [by eapply list_elem_of_lookup_2|done].
Qed.

(** X8: in every store the service can reach from the seed data, no title
    starts or ends with white space, so every stored title is a fixed point of
    [trim]: the seed titles are trimmed and create, PUT and PATCH store
    [title.trim()]. (A stored title can be empty.) *)
Theorem X8_reachable_titles_trimmed (s : list todo) :
  reachable s →
  ∀ t, t ∈ s → no_outer_space (title t) = true ∧ trim (title t) = title t.
Proof.
  intros Hr.
  assert (Forall (λ t, no_outer_space (title t) = true) s) as Hall.
  { induction Hr as [|r s _ IH].
    - unfold todos. repeat constructor.
    - eapply Forall_impl; [apply (app_title_origin r s)|]. simpl.
      intros t' [(t & Ht & ->)|[x ->]].
      + by eapply (proj1 (Forall_forall _ _)) in IH.
      + apply trim_no_outer_space. }
  intros t Ht. eapply (proj1 (Forall_forall _ _)) in Hall; [|done].
  split; [done|]. by apply no_outer_space_trim_fixed.
Qed.

Lemma X8_witness :
  Forall (λ t, no_outer_space (title t) = true ∧ trim (title t) = title t)
    (app (PUT_todo (str "2") (JObj [(str "title", JStr (str "  a b  "))]))
       todos).1.
Proof.
  apply Forall_forall.
  apply (X8_reachable_titles_trimmed
           (app (PUT_todo (str "2") (JObj [(str "title", JStr (str "  a b  "))]))
              todos).1).
  apply reachable_step, reachable_seed.
Defined.

(** ** GET /todos: errors and negative limits *)

(** X9: GET /todos never changes the store and answers 200 or 500; it answers
    500 exactly when the conversion of [limit] throws, or [userId] is truthy
    and its conversion throws (an object with an own [toString]); with [limit]
    and [userId] absent or strings, as a plain query string gives them, the
    answer is always 200. *)
Theorem X9_list_error_behaviour (s : list todo) (query : jsval) :
  (app (GET_todos query) s).1 = s
  ∧ ((∃ l, (app (GET_todos query) s).2 = Response 200 (TodoList l)
           ∧ l `sublist_of` s)
     ∨ (app (GET_todos query) s).2 = Response 500 InternalServerError)
  ∧ ((app (GET_todos query) s).2 = Response 500 InternalServerError
     ↔ parseInt (get_prop query (str "limit")) = Throw TypeError
       ∨ (Boolean (get_prop query (str "userId")) = true
          ∧ parseInt (get_prop query (str "userId")) = Throw TypeError))
  ∧ ((get_prop query (str "limit") = JUndefined
      ∨ ∃ x, get_prop query (str "limit") = JStr x) →
     (get_prop query (str "userId") = JUndefined
      ∨ ∃ x, get_prop query (str "userId") = JStr x) →
     status (app (GET_todos query) s).2 = 200).
Proof.
  unfold app, error_handler, route. rewrite get_todos_run.
  assert (∀ z (l : list todo), slice0 z l `sublist_of` l) as Hsl
    by (intros; apply slice0_sublist).
  destruct (parseInt (get_prop query (str "limit"))) as [n|[]] eqn:Hn.
  - destruct (Boolean (get_prop query (str "userId"))) eqn:Hb.
    + destruct (parseInt (get_prop query (str "userId"))) as [u|[]] eqn:Hu.
      * split_and!; [done| |split|done].
        -- left. eexists. split; [done|]. etrans; [apply Hsl|].
           destruct (num_truthy u); [apply sublist_filter|done].
        -- discriminate.
        -- intros [?|[_ ?]]; discriminate.
      * split_and!; [done|by right|split; [by right|done]|].
        intros _ [Hp|[x Hp]]; rewrite Hp in Hu; discriminate.
    + split_and!; [done| |split|done].
      * left. eexists. split; [done|]. apply Hsl.
      * discriminate.
      * intros [?|[? _]]; discriminate.
  - split_and!; [done|by right|split; [by left|done]|].
    intros [Hp|[x Hp]]; rewrite Hp in Hn; discriminate.
Qed.

Lemma X9_witness :
  status (app (GET_todos (JObj [(str "limit", JStr (str "abc"))])) todos).2 = 200
  ∧ (app (GET_todos (JObj [(str "limit", JObj [(str "toString", JStr (str "1"))])]))
       todos).2 = Response 500 InternalServerError.
Proof.
  split.
  - apply (X9_list_error_behaviour todos (JObj [(str "limit", JStr (str "abc"))])).
    + right. by eexists.
    + by left.
  - apply (proj1 (proj2 (proj2
             (X9_list_error_behaviour todos
                (JObj [(str "limit", JObj [(str "toString", JStr (str "1"))])]))))).
    left. reflexivity.
Defined.

Lemma slice0_negative {A : Type} (z : Z) (l : list A) :
  z < 0 → slice0 z l = take (length l - Z.to_nat (- z)) l.
Proof.
  intros Hz. unfold slice0. destruct (Z.ltb_spec z 0) as [_|?]; [|lia].
  f_equal. lia.
Qed.

(** X10: a limit that parses to a negative integer [-k] is passed to [slice]
    as it is: the answer is the (filtered) sequence without its last [k]
    elements, empty when it has no more than [k]. *)
Theorem X10_negative_limit_drops_from_the_end
    (s : list todo) (query : jsval) (z : Z) (u : jsnum) :
  parseInt (get_prop query (str "limit")) = Ok (Int z) →
  z < 0 →
  parseInt (get_prop query (str "userId")) = Ok u →
  ∃ filtered,
    (∀ k, u = Int k → k ≠ 0 → filtered = filter (λ t, userId t = Int k) s)
    ∧ (num_truthy u = false → filtered = s)
    ∧ app (GET_todos query) s
      = (s, Response 200
              (TodoList (take (length filtered - Z.to_nat (- z)) filtered)))
    ∧ ((length filtered ≤ Z.to_nat (- z))%nat →
       app (GET_todos query) s = (s, Response 200 (TodoList []))).
Proof.
  intros Hn Hz Hu.
  exists (if num_truthy u then filter (λ t, Is_true (has_userId u t)) s else s).
  assert (app (GET_todos query) s
          = (s, Response 200 (TodoList (slice0 z
               (if num_truthy u
                then filter (λ t, Is_true (has_userId u t)) s else s))))) as Hrun.
  { unfold app, error_handler, route. rewrite get_todos_run, Hn, Hu. simpl.
    destruct (Z.eqb_spec z 0) as [?|_]; [lia|]. simpl.
    destruct (Boolean _) eqn:Hb; [done|].
    by rewrite (parseInt_falsy _ _ Hb Hu). }
  rewrite Hrun, (slice0_negative _ _ Hz). split_and!.
  - intros k -> Hk. simpl. destruct (Z.eqb_spec k 0) as [?|_]; [done|]. simpl.
    apply list_filter_iff. intros t. apply has_userId_Int.
  - by intros ->.
  - done.
  - intros Hle. do 3 f_equal.
    replace (_ - _)%nat with 0%nat by lia. done.
Qed.

Lemma X10_witness :
  app (GET_todos (JObj [(str "userId", JStr (str "1")); (str "limit", JStr (str "-3"))]))
      todos
  = (todos, Response 200 (TodoList [Todo (Int 1) 1 (str "delectus aut autem") false])).
Proof.
  destruct (X10_negative_limit_drops_from_the_end todos
              (JObj [(str "userId", JStr (str "1")); (str "limit", JStr (str "-3"))])
              (-3) (Int 1))
    as (filtered & Hf & _ & Hrun & _).
  - reflexivity.
  - reflexivity.
  - reflexivity.
  - rewrite Hrun, (Hf 1 eq_refl); [reflexivity|discriminate].
Defined.

(** ** PUT and PATCH: repetition, empty bodies, failed conversions *)

Lemma apply_fields_idempotent (body : jsval) (t : todo) :
  apply_fields body (apply_fields body t).1 = apply_fields body t.
Proof.
  unfold apply_fields, field_update. destruct t as [u k ti c].
  destruct (get_prop body (str "title")) as [| |v|n|x|l|o]; simpl;
    destruct (get_prop body (str "completed")); simpl;
    destruct (get_prop body (str "userId")); simpl;
    try reflexivity; destruct (parseInt _); reflexivity.
Qed.

(** X11: PUT and PATCH are idempotent: repeating the request on the store it
    left gives the same store and the same answer again, also when the answer
    is 404 or 500. *)
Theorem X11_put_patch_idempotent (s : list todo) (idp : jstring) (body : jsval) :
  app (PUT_todo idp body) (app (PUT_todo idp body) s).1
  = app (PUT_todo idp body) s
  ∧ app (PATCH_todo idp body) (app (PATCH_todo idp body) s).1
    = app (PATCH_todo idp body) s.
Proof.
  assert (∀ i t, find (has_id (parseInt_string idp)) s = Some (i, t) →
            find (has_id (parseInt_string idp)) (<[i := (apply_fields body t).1]> s)
            = Some (i, (apply_fields body t).1)) as Hfind.
  { intros i t Hf. apply (find_insert_same_id _ _ _ t); [done|].
    apply apply_fields_id. }
  split.
  - unfold app at 2. unfold error_handler, route. rewrite put_todo_run.
    destruct (find _ s) as [[i t]|] eqn:Hf; [|done].
    specialize (Hfind i t eq_refl).
    pose proof (apply_fields_idempotent body t) as Hidem.
    unfold app, error_handler, route. rewrite !put_todo_run, Hf.
    destruct (apply_fields body t) as [t' r] eqn:Ha. simpl in *.
    destruct r as [[]|e]; simpl; rewrite Hfind, Hidem;
      by rewrite list_insert_insert_eq.
  - unfold app at 2. unfold error_handler, route. rewrite patch_todo_run.
    destruct (find _ s) as [[i t]|] eqn:Hf; [|done].
    specialize (Hfind i t eq_refl).
    pose proof (apply_fields_idempotent body t) as Hidem.
    unfold app, error_handler, route. rewrite !patch_todo_run, Hf.
    destruct (apply_fields body t) as [t' r] eqn:Ha. simpl in *.
    destruct r as [[]|e]; simpl; rewrite Hfind, Hidem;
      by rewrite list_insert_insert_eq.
Qed.

(** X12: a body that supplies none of [title], [completed], [userId] (the
    empty object, an array, other keys only) is accepted: PUT and PATCH answer
    200 with the record found, report no updated field and leave the store as
    it was. *)
Theorem X12_update_without_fields_is_a_no_op
    (s : list todo) (idp : jstring) (body : jsval) (i : nat) (t : todo) :
  find (has_id (parseInt_string idp)) s = Some (i, t) →
  get_prop body (str "title") = JUndefined →
  get_prop body (str "completed") = JUndefined →
  get_prop body (str "userId") = JUndefined →
  app (PUT_todo idp body) s = (s, Response 200 (Updated t (false, false, false)))
  ∧ app (PATCH_todo idp body) s = (s, Response 200 (PartiallyUpdated t [])).
Proof.
  intros Hf Ht Hc Hu. pose proof (find_Some_lookup _ _ _ _ Hf) as [Hl _].
  unfold app, error_handler, route. rewrite put_todo_run, patch_todo_run, Hf.
  unfold apply_fields, updated_names. rewrite Ht, Hc, Hu. simpl.
  by rewrite (list_insert_id _ _ _ Hl).
Qed.

Lemma X12_witness :
  app (PUT_todo (str "3") (JArr [JStr (str "title")])) todos
  = (todos,
     Response 200
       (Updated (Todo (Int 1) 3 (str "fugiat veniam minus") false)
          (false, false, false)))
  ∧ app (PATCH_todo (str "3") (JArr [JStr (str "title")])) todos
    = (todos,
       Response 200
         (PartiallyUpdated (Todo (Int 1) 3 (str "fugiat veniam minus") false) [])).
Proof.
  apply (X12_update_without_fields_is_a_no_op todos (str "3")
           (JArr [JStr (str "title")]) 2%nat); reflexivity.
Defined.

(** X13: PUT and PATCH are not atomic: when [title] is a string and the
    conversion of [userId] throws, the answer is 500 but the trimmed title and
    the coerced [completed], assigned before, stay written in the record. *)
Theorem X13_update_keeps_writes_before_a_throw
    (s : list todo) (idp : jstring) (body : jsval) (i : nat) (t : todo)
    (x : jstring) :
  find (has_id (parseInt_string idp)) s = Some (i, t) →
  get_prop body (str "title") = JStr x →
  parseInt (get_prop body (str "userId")) = Throw TypeError →
  let t' := spec_partial_update (Some x) (supplied_completed body) None t in
  app (PUT_todo idp body) s = (<[i := t']> s, Response 500 InternalServerError)
  ∧ app (PATCH_todo idp body) s = (<[i := t']> s, Response 500 InternalServerError)
  ∧ title t' = trim x.
Proof.
  intros Hf Ht Hu t'.
  assert (apply_fields body t = (t', Throw TypeError)) as Ha.
  { unfold apply_fields, field_update, t', spec_partial_update,
      supplied_completed.
    rewrite Ht. destruct t as [u k ti c].
    destruct (get_prop body (str "userId")); try discriminate;
      rewrite Hu; by destruct (get_prop body (str "completed")). }
  unfold app, error_handler, route.
  by rewrite put_todo_run, patch_todo_run, Hf, Ha.
Qed.

Lemma X13_witness :
  let body := JObj [(str "title", JStr (str " new "));
                    (str "completed", JNum (Int 1));
                    (str "userId", JObj [(str "toString", JNull)])] in
  let t' := Todo (Int 1) 1 (str "new") true in
  app (PUT_todo (str "1") body) todos
  = (<[0%nat := t']> todos, Response 500 InternalServerError)
  ∧ app (PATCH_todo (str "1") body) todos
    = (<[0%nat := t']> todos, Response 500 InternalServerError)
  ∧ title t' = trim (str " new ").
Proof.
  intros body t'.
  apply (X13_update_keeps_writes_before_a_throw todos (str "1") body 0%nat
           (Todo (Int 1) 1 (str "delectus aut autem") false) (str " new "));
    reflexivity.
Defined.

(** ** Reading back what was written *)

Lemma find_created (s : list todo) (nt : todo) :
  id nt = max_id s + 1 →
  find (has_id (Int (max_id s + 1))) (s ++ [nt]) = Some (length s, nt).
Proof.
  intros Hid. unfold find. rewrite list_find_app_r.
  - simpl. rewrite decide_True; [done|].
    apply Is_true_true. by apply has_id_Int.
  - apply (find_None_absent (Int (max_id s + 1)) s).
    intros t Ht%max_id_upper [= Heq]. lia.
Qed.

(** X14: the record a create has answered with is what GET /todos/:id returns
    for the new id right after. *)
Theorem X14_get_after_create
    (s : list todo) (body : jsval) (x : jstring) (u : jsnum) (idp : jstring) :
  get_prop body (str "title") = JStr x →
  x ≠ [] →
  parseInt (get_prop_default body (str "userId") (JNum (Int 1))) = Ok u →
  parseInt_string idp = Int (max_id s + 1) →
  ∃ newTodo s',
    app (POST_todos body) s = (s', Response 201 (Created newTodo))
    ∧ app (GET_todo idp) s' = (s', Response 200 (TodoItem newTodo)).
Proof.
  intros Ht Hne Hu Hidp. eexists _, _.
  split; [by apply post_todos_created|].
  apply (get_todo_found _ idp (length s)). rewrite Hidp. by apply find_created.
Qed.

Lemma X14_witness :
  ∃ newTodo s',
    app (POST_todos (JObj [(str "title", JStr (str "x"))])) todos
    = (s', Response 201 (Created newTodo))
    ∧ app (GET_todo (str "6")) s' = (s', Response 200 (TodoItem newTodo)).
Proof.
  apply (X14_get_after_create todos (JObj [(str "title", JStr (str "x"))])
           (str "x") (Int 1) (str "6")).
  - reflexivity.
  - vm_compute. discriminate.
  - reflexivity.
  - reflexivity.
Defined.

(** X15: deleting the id that a create has just assigned removes the created
    record again and gives back the store as it was before the create. *)
Theorem X15_delete_after_create_restores
    (s : list todo) (body : jsval) (x : jstring) (u : jsnum) (idp : jstring) :
  get_prop body (str "title") = JStr x →
  x ≠ [] →
  parseInt (get_prop_default body (str "userId") (JNum (Int 1))) = Ok u →
  parseInt_string idp = Int (max_id s + 1) →
  ∃ newTodo s',
    app (POST_todos body) s = (s', Response 201 (Created newTodo))
    ∧ app (DELETE_todo idp) s'
      = (s, Response 200 (Deleted (Some newTodo) (length s))).
Proof.
  intros Ht Hne Hu Hidp. eexists _, _.
  split; [by apply post_todos_created|].
  unfold app, error_handler, route. rewrite delete_todo_run, Hidp.
  rewrite find_created by done.
  by rewrite delete_middle, app_nil_r.
Qed.

Lemma X15_witness :
  ∃ newTodo s',
    app (POST_todos (JObj [(str "title", JStr (str "x"))])) todos
    = (s', Response 201 (Created newTodo))
    ∧ app (DELETE_todo (str "6")) s'
      = (todos, Response 200 (Deleted (Some newTodo) (length todos))).
Proof.
  apply (X15_delete_after_create_restores todos
           (JObj [(str "title", JStr (str "x"))]) (str "x") (Int 1) (str "6")).
  - reflexivity.
  - vm_compute. discriminate.
  - reflexivity.
  - reflexivity.
Defined.

Lemma get_after_write (s : list todo) (idp : jstring) i t t' :
  find (has_id (parseInt_string idp)) s = Some (i, t) →
  id t' = id t →
  app (GET_todo idp) (<[i := t']> s) = (<[i := t']> s, Response 200 (TodoItem t')).
Proof.
  intros Hf Hid. apply (get_todo_found _ idp i).
  by apply (find_insert_same_id _ _ _ t).
Qed.

(** X16: read your writes: the record in a 200 answer of PUT, PATCH, toggle or
    complete is the record that GET /todos/:id returns for the same id on the
    store the request left. *)
Theorem X16_get_after_update
    (s s' : list todo) (idp : jstring) (body : jsval) (t' : todo) :
  (∀ f, app (PUT_todo idp body) s = (s', Response 200 (Updated t' f)) →
        app (GET_todo idp) s' = (s', Response 200 (TodoItem t')))
  ∧ (∀ f, app (PATCH_todo idp body) s
          = (s', Response 200 (PartiallyUpdated t' f)) →
          app (GET_todo idp) s' = (s', Response 200 (TodoItem t')))
  ∧ (app (POST_toggle idp) s = (s', Response 200 (Toggled t')) →
     app (GET_todo idp) s' = (s', Response 200 (TodoItem t')))
  ∧ (∀ a, app (POST_complete idp body) s
          = (s', Response 200 (MarkedCompleted t' a)) →
          app (GET_todo idp) s' = (s', Response 200 (TodoItem t'))).
Proof.
  unfold app at 1 3 5 7. unfold error_handler, route.
  rewrite put_todo_run, patch_todo_run, toggle_todo_run, complete_todo_run.
  destruct (find _ s) as [[i t]|] eqn:Hf.
  2:{ split_and!; intros; discriminate. }
  pose proof (apply_fields_id body t) as Hid.
  split_and!.
  - intros f. destruct (apply_fields body t) as [t1 [[]|e]]; [|discriminate].
    intros [= <- <- _]. by apply (get_after_write _ _ _ t).
  - intros f. destruct (apply_fields body t) as [t1 [[]|e]]; [|discriminate].
    intros [= <- <- _]. by apply (get_after_write _ _ _ t).
  - intros [= <- <-]. by apply (get_after_write _ _ _ t).
  - intros a [= <- <- _]. by apply (get_after_write _ _ _ t).
Qed.

Lemma X16_witness :
  let s' := <[1%nat := Todo (Int 9) 2 (str "quis ut nam facilis") true]> todos in
  app (GET_todo (str "2")) s'
  = (s', Response 200 (TodoItem (Todo (Int 9) 2 (str "quis ut nam facilis") true))).
Proof.
  intros s'.
  apply (proj1 (X16_get_after_update todos s' (str "2")
                  (JObj [(str "userId", JNum (Int 9))])
                  (Todo (Int 9) 2 (str "quis ut nam facilis") true))
           (false, false, true)).
  reflexivity.
Defined.

(** ** [parseInt] on numbers and on decimal notation *)

Lemma str_String (a : ascii) (s : string) :
  str (String a s) = Z.of_N (N_of_ascii a) :: str s.
Proof. reflexivity. Qed.

Lemma read_digits_digit (k acc : Z) (n : nat) (rest : jstring) :
  0 ≤ k ≤ 9 →
  read_digits 10 acc n ((48 + k) :: rest) = read_digits 10 (acc * 10 + k) (S n) rest.
Proof.
  intros Hk. simpl. unfold digit_value.
  destruct (Z.leb_spec 48 (48 + k)), (Z.leb_spec (48 + k) 57); try lia. simpl.
  destruct (Z.ltb_spec (48 + k - 48) 10); [|lia].
  by replace (48 + k - 48) with k by lia.
Qed.

(** One digit of the decimal notation read by [read_digits]. *)
Ltac read_one_digit :=
  rewrite str_String;
  match goal with
  | |- context [Z.of_N (N_of_ascii ?a)] =>
      let v := eval vm_compute in (Z.of_N (N_of_ascii a) - 48) in
      change (Z.of_N (N_of_ascii a)) with (48 + v)
  end;
  rewrite read_digits_digit by lia.

Lemma read_digits_uint_acc (d : Decimal.uint) (acc : positive) (n : nat) :
  ∃ k, read_digits 10 (Z.pos acc) n (str (NilEmpty.string_of_uint d))
       = (Z.pos (Pos.of_uint_acc d acc), (n + k)%nat).
Proof.
  revert acc n. induction d as [|d IH|d IH|d IH|d IH|d IH|d IH|d IH|d IH|d IH|d IH];
    intros acc n; [exists 0%nat; simpl; f_equal; lia|..];
    cbn [NilEmpty.string_of_uint Pos.of_uint_acc]; read_one_digit;
    match goal with
    | |- context [read_digits 10 ?a (S n) _] =>
        match goal with
        | |- context [Pos.of_uint_acc d ?p] =>
            replace a with (Z.pos p) by lia;
            destruct (IH p (S n)) as [k ->]; exists (S k); f_equal; lia
        end
    end.
Qed.

Lemma read_digits_uint (d : Decimal.uint) (n : nat) :
  ∃ k, read_digits 10 0 n (str (NilEmpty.string_of_uint d))
       = (Z.of_N (Pos.of_uint d), (n + k)%nat)
       ∧ (d ≠ Decimal.Nil → k ≠ 0%nat).
Proof.
  revert n. induction d as [|d IH|d IH|d IH|d IH|d IH|d IH|d IH|d IH|d IH|d IH];
    intros n; [exists 0%nat; split; [simpl; f_equal; lia|done]|..];
    cbn [NilEmpty.string_of_uint Pos.of_uint]; read_one_digit;
    [ destruct (IH (S n)) as (k & Hk & _); change (0 * 10 + 0) with 0;
      rewrite Hk;
      exists (S k); split; [f_equal; lia|done]
    | match goal with
      | |- context [Pos.of_uint_acc d ?p] =>
          destruct (read_digits_uint_acc d p (S n)) as [k Hk];
          match goal with
          | |- context [read_digits 10 ?a (S n) _] =>
              replace a with (Z.pos p) by lia
          end;
          rewrite Hk; exists (S k); split; [f_equal; lia|done]
      end .. ].
Qed.

Lemma string_of_uint_digits (d : Decimal.uint) :
  Forall (λ c, 48 ≤ c ≤ 57) (str (NilEmpty.string_of_uint d)).
Proof.
  induction d; cbn [NilEmpty.string_of_uint]; rewrite ?str_String;
    constructor; (done || (simpl; lia)).
Qed.

(** On a non-empty run of decimal digits, with or without a minus sign in
    front, [parseInt] is the decimal reading of the digits. *)
Lemma parseInt_string_digits (c : Z) (l : jstring) :
  Forall (λ c, 48 ≤ c ≤ 57) (c :: l) →
  parseInt_string (c :: l) = Int (read_digits 10 0 0 (c :: l)).1
  ∧ parseInt_string (45 :: c :: l) = Int (- (read_digits 10 0 0 (c :: l)).1).
Proof.
  intros [Hc Hl]%Forall_cons.
  assert (∀ acc n s, (read_digits 10 acc (S n) s).2 ≠ 0%nat) as Hcount.
  { intros acc n s. revert acc n.
    induction s as [|x s IH]; intros acc n; simpl; [done|].
    destruct (digit_value 10 x); [apply IH|done]. }
  assert (parseInt_string (c :: l)
          = (let '(m, cnt) := read_digits 10 0 0 (c :: l) in
             match cnt with O => NaN | _ => Int (1 * m) end)
          ∧ parseInt_string (45 :: c :: l)
            = (let '(m, cnt) := read_digits 10 0 0 (c :: l) in
               match cnt with O => NaN | _ => Int (-1 * m) end)) as [-> ->].
  { assert (c = 48 ∨ c = 49 ∨ c = 50 ∨ c = 51 ∨ c = 52 ∨ c = 53 ∨ c = 54
            ∨ c = 55 ∨ c = 56 ∨ c = 57) as Hcases by lia.
    destruct l as [|x l].
    - destruct Hcases as [->|[->|[->|[->|[->|[->|[->|[->|[->| ->]]]]]]]]];
        split; reflexivity.
    - apply Forall_cons in Hl as [Hx _].
      assert (x = 48 ∨ x = 49 ∨ x = 50 ∨ x = 51 ∨ x = 52 ∨ x = 53 ∨ x = 54
              ∨ x = 55 ∨ x = 56 ∨ x = 57) as Hxcases by lia.
      destruct Hcases as [->|[->|[->|[->|[->|[->|[->|[->|[->| ->]]]]]]]]];
        try (split; reflexivity);
        destruct Hxcases as [->|[->|[->|[->|[->|[->|[->|[->|[->| ->]]]]]]]]];
        split; reflexivity. }
  assert ((read_digits 10 0 0 (c :: l)).2 ≠ 0%nat) as Hnz.
  { simpl. assert (digit_value 10 c = Some (c - 48)) as ->.
    { unfold digit_value.
      destruct (Z.leb_spec 48 c), (Z.leb_spec c 57); try lia. simpl.
      destruct (Z.ltb_spec (c - 48) 10); [done|lia]. }
    apply Hcount. }
  destruct (read_digits 10 0 0 (c :: l)) as [m [|cnt]]; [done|].
  split; simpl; f_equal; lia.
Qed.

Lemma parseInt_number_to_string (z : Z) :
  parseInt_string (number_to_string (Int z)) = Int z.
Proof.
  destruct z as [|p|p]; [reflexivity|..]; simpl number_to_string;
    unfold NilZero.string_of_int, NilZero.string_of_uint; simpl Z.to_int;
    pose proof (DecimalPos.Unsigned.to_uint_nonnil p) as Hnn;
    pose proof (DecimalPos.Unsigned.of_to p) as Hof;
    pose proof (string_of_uint_digits (Pos.to_uint p)) as Hdig;
    destruct (read_digits_uint (Pos.to_uint p) 0) as (k & Hrd & _);
    rewrite Hof in Hrd;
    destruct (Pos.to_uint p) as [|d|d|d|d|d|d|d|d|d|d] eqn:Hd; try done;
    cbn [NilEmpty.string_of_uint] in *; rewrite ?str_String in *;
    change (Z.of_N (N_of_ascii "-")) with 45;
    match goal with
    | H : Forall _ (?c :: ?l) |- _ =>
        destruct (parseInt_string_digits c l H) as [Hpos Hneg]
    end;
    first [ rewrite Hpos, Hrd; reflexivity | rewrite Hneg, Hrd; reflexivity ].
Qed.



(** Outside that range the model's [parseInt] no longer stands for
    JavaScript's, and the hypotheses above exclude the request: 2^53 + 1 is
    read exactly here, where JavaScript returns the double 2^53. *)
Example userId_beyond_safe_range_not_covered :
  parseInt (JStr (str "9007199254740993")) = Ok (Int (2 ^ 53 + 1))
  ∧ is_safe_int (Int (2 ^ 53 + 1)) = false
  ∧ ¬ userId_parses
        (PUT_todo (str "1") (JObj [(str "userId", JStr (str "9007199254740993"))])).
Proof.
  split_and!; [vm_compute; reflexivity..|].
  intros [Hu|Hp]; [vm_compute in Hu; discriminate|].
  specialize (Hp (Int (2 ^ 53 + 1))). vm_compute in Hp.
  by specialize (Hp eq_refl).
Qed.

(** X18: every record of a store with pairwise distinct ids is addressed by
    the decimal notation of its id: GET /todos/:id with it answers 200 with
    the record, DELETE with it removes that record, and toggle flips it. *)
Theorem X18_decimal_id_addresses_the_record
    (s : list todo) (i : nat) (t : todo) :
  unique_ids s →
  s !! i = Some t →
  let idp := number_to_string (Int (id t)) in
  app (GET_todo idp) s = (s, Response 200 (TodoItem t))
  ∧ app (DELETE_todo idp) s
    = (delete i s, Response 200 (Deleted (Some t) (length s - 1)))
  ∧ app (POST_toggle idp) s
    = (<[i := flip_completed t]> s, Response 200 (Toggled (flip_completed t))).
Proof.
  intros Hnd Hl idp.
  assert (find (has_id (parseInt_string idp)) s = Some (i, t)) as Hf.
  { unfold idp. rewrite parseInt_number_to_string. by apply find_unique. }
  unfold app, error_handler, route.
  rewrite get_todo_run, delete_todo_run, toggle_todo_run, Hf.
  split_and!; [done| |done].
  rewrite length_delete by eauto. done.
Qed.

Lemma X18_witness :
  app (GET_todo (str "4")) todos
  = (todos, Response 200 (TodoItem (Todo (Int 1) 4 (str "et porro tempora") true)))
  ∧ app (DELETE_todo (str "4")) todos
    = (delete 3%nat todos,
       Response 200 (Deleted (Some (Todo (Int 1) 4 (str "et porro tempora") true)) 4))
  ∧ app (POST_toggle (str "4")) todos
    = (<[3%nat := Todo (Int 1) 4 (str "et porro tempora") false]> todos,
       Response 200 (Toggled (Todo (Int 1) 4 (str "et porro tempora") false))).
Proof.
  apply (X18_decimal_id_addresses_the_record todos 3%nat
           (Todo (Int 1) 4 (str "et porro tempora") true)).
  - apply todos_unique_ids.
  - reflexivity.
Defined.

(** ** The store is ordered by id *)

Lemma StronglySorted_delete {A : Type} (R : relation A) (l : list A) (i : nat) :
  StronglySorted R l → StronglySorted R (delete i l).
Proof.
  revert i. induction l as [|x l IH]; intros i; [done|].
  intros [Hx Hl]%StronglySorted_cons. destruct i as [|i]; simpl; [done|].
  apply StronglySorted_cons. split; [by apply Forall_delete|by apply IH].
Qed.

Lemma app_sorted_ids (r : request) (s : list todo) :
  StronglySorted Z.lt (ids s) → StronglySorted Z.lt (ids (app r s).1).
Proof.
  intros Hs.
  destruct (app_store_change r s)
    as [->|[(t & -> & Hid & _)|[(i & t & t' & Hl & -> & Hid & _)|[i ->]]]].
  - done.
  - unfold ids. rewrite fmap_app. apply StronglySorted_app_2; [|done|].
    + intros x1 x2 (t1 & -> & Ht1%max_id_upper)%list_elem_of_fmap
        ->%list_elem_of_singleton. lia.
    + repeat constructor.
  - by rewrite (ids_insert_same_id _ _ _ _ Hl Hid).
  - rewrite ids_delete. by apply StronglySorted_delete.
Qed.

(** X19: in every store the service can reach from the seed data the records
    stand in strictly increasing order of id, so GET /todos lists them by
    ascending id, and the highest id is the id of the last record: the next
    create gives the last record's id plus one. *)
Theorem X19_reachable_store_sorted_by_id (s : list todo) :
  reachable s →
  StronglySorted Z.lt (ids s)
  ∧ (∀ t, last s = Some t → max_id s = id t).
Proof.
  intros Hr.
  assert (StronglySorted Z.lt (ids s) ∧ Forall (λ t, 1 ≤ id t) s) as [Hs Hpos].
  { induction Hr as [|r s _ [IHs IHp]].
    - split; unfold todos; repeat constructor; simpl; lia.
    - split; [by apply app_sorted_ids|by apply app_positive_ids]. }
  split; [done|]. intros t (l' & ->)%last_Some.
  assert (t ∈ l' ++ [t]) as Hin by (apply elem_of_app; right; by left).
  pose proof (max_id_upper _ _ Hin) as Hle.
  pose proof (proj1 (Forall_forall _ _) Hpos t Hin) as Hone.
  destruct (max_id_attained (l' ++ [t])) as [H0|Hmax]; [simpl in *; lia|].
  unfold ids in Hs, Hmax. rewrite fmap_app in Hs, Hmax.
  apply elem_of_app in Hmax as [Hmax|Hmax%list_elem_of_singleton]; [|done].
  pose proof (StronglySorted_app_1_elem_of _ _ _ _ (id t) Hs Hmax) as Hlt.
  assert (max_id (l' ++ [t]) < id t); [|lia].
  apply Hlt. by left.
Qed.

Lemma X19_witness :
  let s := (app (DELETE_todo (str "5")) todos).1 in
  StronglySorted Z.lt (ids s) ∧ (∀ t, last s = Some t → max_id s = id t).
Proof.
  intros s. apply (X19_reachable_store_sorted_by_id s).
  apply reachable_step, reachable_seed.
Defined.
